(** * gpustat-web: the monitoring core of [gpustat_web/app.py]

    The development follows the source file top to bottom:

    - [OrderedDict]: the insertion-ordered dictionary behind
      [Context.host_status];
    - [Context] and [host_set_message];
    - [run_client]: the per-host coroutine, as a machine that is resumed
      at each of its [await] points;
    - [spawn_clients]: the placeholder loop and the gathered tasks;
    - [render_gpustat_body];
    - [websocket_handler] and its inner [_handle_websocketmessage].

    Two libraries are used by the source but are not part of it:
    [termcolor.colored] and [ansi2html]'s converter.  They are interfaces
    here ([Termcolor], [Ansi2HTMLConverter]); every general statement holds
    for all their implementations. *)

From Stdlib Require Import String Ascii List ZArith Bool Lia.
Import ListNotations.

Local Open Scope list_scope.
Local Open Scope string_scope.

(** ** External libraries *)

(** The colour names that the source passes to [colored] and [cprint]. *)
Inductive color : Type := red | green | yellow | cyan | white.

(** [termcolor.colored(text, color)]. *)
Class Termcolor : Type := { colored : string -> color -> string }.

(** [ansi_conv.convert(body, full=False)]. *)
Class Ansi2HTMLConverter : Type := { convert : string -> string }.

(** A concrete [colored], the one of termcolor: the text between the SGR
    escape sequence of the colour and the reset sequence. *)
Definition ESC : string := String (ascii_of_nat 27) "".

Definition sgr_code (c : color) : string :=
  match c with
  | red => "31" | green => "32" | yellow => "33" | cyan => "36" | white => "37"
  end.

Definition sgr_termcolor : Termcolor :=
  {| colored := fun text c => ESC ++ "[" ++ sgr_code c ++ "m" ++ text ++ ESC ++ "[0m" |}.

(** A converter that leaves the text as it is, for concrete runs. *)
Definition plain_converter : Ansi2HTMLConverter := {| convert := fun body => body |}.

(** ** [collections.OrderedDict], as far as the source uses it *)

Module OrderedDict.

(** Items in insertion order; a key occurs at most once ([wf]). *)
Definition t : Type := list (string * string).

Definition empty : t := [].

Definition items (d : t) : list (string * string) := d.

Definition keys (d : t) : list string := map fst d.

(** [d.get(k)]. *)
Fixpoint get (k : string) (d : t) : option string :=
  match d with
  | [] => None
  | (k', v') :: d' => if String.eqb k k' then Some v' else get k d'
  end.

(** [d[k] = v]: an existing key keeps its place, a new key goes last. *)
Fixpoint set (k v : string) (d : t) : t :=
  match d with
  | [] => [(k, v)]
  | (k', v') :: d' =>
      if String.eqb k k' then (k', v) :: d' else (k', v') :: set k v d'
  end.

(** The dictionary without the key [k] (used in statements only). *)
Definition without (k : string) (d : t) : t :=
  filter (fun kv => negb (String.eqb k (fst kv))) d.

Definition wf (d : t) : Prop := NoDup (keys d).

End OrderedDict.

(** ** [class Context] *)

Record Context : Type := { host_status : OrderedDict.t }.

(** [Context.__init__]. *)
Definition Context_init : Context := {| host_status := OrderedDict.empty |}.

(** Python's newline. *)
Definition LF : string := String (ascii_of_nat 10) "".

(** The text that [host_set_message] puts before the message. *)
Definition host_tag {tc : Termcolor} (host : string) : string :=
  colored ("(" ++ host ++ ") ") white.

(** [host_set_message]:
    [self.host_status[host] = colored(f"({host}) ", 'white') + msg + '\n'] *)
Definition host_set_message {tc : Termcolor} (self : Context) (host msg : string) : Context :=
  {| host_status := OrderedDict.set host (host_tag host ++ msg ++ LF) (host_status self) |}.

(** The assignment [context.host_status[host] = value] of line 59. *)
Definition host_status_assign (self : Context) (host value : string) : Context :=
  {| host_status := OrderedDict.set host value (host_status self) |}.

(** ** [run_client] *)

(** What an awaited call can raise.  The [except] clause of [run_client]
    tells [asyncssh.misc.DisconnectError] from everything else; [str ex]
    is the text of the exception. *)
Inductive exn : Type :=
| DisconnectError (str : string)
| OtherException (str : string).

Definition str (ex : exn) : string :=
  match ex with DisconnectError s => s | OtherException s => s end.

(** Where the coroutine is suspended, or how it ended. *)
Inductive run_client_pc : Type :=
| at_connect                  (* line 43, [asyncssh.connect(host)] *)
| at_run                      (* line 50, [await conn.run(...)] *)
| at_sleep                    (* line 62, [await asyncio.sleep(poll_delay)] *)
| returned                    (* left through the [except] clause *)
| propagated (ex : exn).      (* the exception left [run_client] *)

(** What the event loop resumes the coroutine with. *)
Inductive resumption : Type :=
| connected
| completed (exit_status : Z) (stdout : string)
| woke_up
| throw (ex : exn).

(** What the coroutine prints; the texts carry a time stamp and padding,
    and only their kind is kept. *)
Inductive printed : Type :=
| established                        (* line 44 *)
| error_exitcode (exit_status : Z)   (* line 54 *)
| ok_from_gpustat (bytes : nat)      (* line 57, under [verbose] *)
| traceback                          (* line 67 *)
| bye.                               (* line 70, [finally] *)

(** The [except]/[finally] part, lines 64-70. *)
Definition run_client_except {tc : Termcolor} (host : string) (ex : exn) (context : Context)
  : run_client_pc * Context * list printed :=
  match ex with
  | DisconnectError _ =>
      (returned, host_set_message context host (colored (str ex) red), [traceback; bye])
  | OtherException _ =>
      (propagated ex, context, [bye])
  end.

(** One resumption of [run_client host] at [pc]: the code that runs up to
    the next [await], with the new [context] and the lines printed.  A
    coroutine that has ended is not resumed, and a resumption that does
    not answer the pending [await] changes nothing. *)
Definition run_client {tc : Termcolor} (host : string) (verbose : bool)
  (pc : run_client_pc) (r : resumption) (context : Context)
  : run_client_pc * Context * list printed :=
  match pc, r with
  | at_connect, connected => (at_run, context, [established])
  | at_run, completed exit_status stdout =>
      if negb (Z.eqb exit_status 0)
      then (at_sleep, context, [error_exitcode exit_status])
      else (at_sleep, host_status_assign context host stdout,
            if verbose then [ok_from_gpustat (String.length stdout)] else [])
  | at_sleep, woke_up => (at_run, context, [])
  | at_connect, throw ex | at_run, throw ex | at_sleep, throw ex =>
      run_client_except host ex context
  | _, _ => (pc, context, [])
  end.

(** A whole run of one coroutine, resumption after resumption. *)
Fixpoint run_client_many {tc : Termcolor} (host : string) (verbose : bool)
  (rs : list resumption) (pc : run_client_pc) (context : Context)
  : run_client_pc * Context :=
  match rs with
  | [] => (pc, context)
  | r :: rs' =>
      let '(pc', context', _) := run_client host verbose pc r context in
      run_client_many host verbose rs' pc' context'
  end.

(** ** [spawn_clients] *)

(** The loop of lines 75-76. *)
Definition initial_response {tc : Termcolor} (hosts : list string) (context : Context) : Context :=
  fold_left (fun c host => host_set_message c host "Loading ...") hosts context.

(** [max(len(host) for host in hosts)]; Python raises [ValueError] on an
    empty sequence, which is [None] here. *)
Definition max_len (hosts : list string) : option nat :=
  match hosts with
  | [] => None
  | host :: hosts' => Some (fold_left Nat.max (map String.length hosts') (String.length host))
  end.

(** One coroutine [run_client(host, verbose=verbose, name_length=name_length)]
    handed to [asyncio.gather]. *)
Record task : Type := {
  task_host : string;
  task_name_length : nat;
  task_verbose : bool;
  task_pc : run_client_pc
}.

(** The shared [context], the gathered tasks and what has been printed. *)
Record fleet : Type := {
  context : Context;
  tasks : list task;
  console : list printed
}.

(** [spawn_clients(hosts, verbose)] up to the [await] of line 81: the
    placeholders are written, then every host gets its task, in the order
    of [hosts].  [None] is the [ValueError] of line 78. *)
Definition spawn_clients {tc : Termcolor} (hosts : list string) (verbose : bool)
  (context : Context) : option fleet :=
  let context' := initial_response hosts context in
  match max_len hosts with
  | None => None
  | Some name_length =>
      Some {| context := context';
              tasks := map (fun host => {| task_host := host;
                                           task_name_length := name_length;
                                           task_verbose := verbose;
                                           task_pc := at_connect |}) hosts;
              console := [] |}
  end.

Definition set_pc (t : task) (pc : run_client_pc) : task :=
  {| task_host := task_host t;
     task_name_length := task_name_length t;
     task_verbose := task_verbose t;
     task_pc := pc |}.

Fixpoint update_nth {A : Type} (i : nat) (x : A) (l : list A) : list A :=
  match l, i with
  | [], _ => []
  | _ :: l', O => x :: l'
  | y :: l', S i' => y :: update_nth i' x l'
  end.

(** The event loop resumes the [i]-th gathered task with [r].  The tasks
    share nothing but [context].  Any task may be resumed at any time,
    also after another one has ended with an exception: what
    [asyncio.gather] does with the others then is left open, and the
    statements below hold for every schedule. *)
Definition resume_task {tc : Termcolor} (i : nat) (r : resumption) (f : fleet) : fleet :=
  match nth_error (tasks f) i with
  | None => f
  | Some t =>
      let '(pc', context', out) :=
        run_client (task_host t) (task_verbose t) (task_pc t) r (context f) in
      {| context := context';
         tasks := update_nth i (set_pc t pc') (tasks f);
         console := (console f ++ out)%list |}
  end.

(** Any schedule of resumptions. *)
Definition event_loop {tc : Termcolor} (schedule : list (nat * resumption)) (f : fleet) : fleet :=
  fold_left (fun f' ir => resume_task (fst ir) (snd ir) f') schedule f.

(** The process from its start: [context = Context()], then
    [spawn_clients], then a schedule. *)
Definition startup {tc : Termcolor} (hosts : list string) (verbose : bool) : option fleet :=
  spawn_clients hosts verbose Context_init.

(** ** [render_gpustat_body] *)

(** The body of the [for] loop, lines 101-103. *)
Definition render_item (body : string) (item : string * string) : string :=
  let '(host, status) := item in
  if String.eqb status "" then body else body ++ status.

(** The accumulator [body] after the loop. *)
Definition gpustat_body (context : Context) : string :=
  fold_left render_item (OrderedDict.items (host_status context)) "".

Definition render_gpustat_body {conv : Ansi2HTMLConverter} (context : Context) : string :=
  convert (gpustat_body context).

(** ** [websocket_handler] *)

Inductive WSMsgType : Type := TEXT | BINARY | PING | PONG | CLOSE | ERROR.

Record WSMessage : Type := { type : WSMsgType; data : string }.

(** The server's end of a connection: whether it has been closed and the
    text messages sent on it, oldest first. *)
Record WebSocketResponse : Type := { closed : bool; sent : list string }.

(** [web.WebSocketResponse()] after [prepare]. *)
Definition WebSocketResponse_init : WebSocketResponse := {| closed := false; sent := [] |}.

Definition ws_close (ws : WebSocketResponse) : WebSocketResponse :=
  {| closed := true; sent := sent ws |}.

Definition ws_send_str (ws : WebSocketResponse) (body : string) : WebSocketResponse :=
  {| closed := closed ws; sent := (sent ws ++ [body])%list |}.

(** The inner function of lines 167-173. *)
Definition _handle_websocketmessage {conv : Ansi2HTMLConverter}
  (context : Context) (ws : WebSocketResponse) (msg : WSMessage) : WebSocketResponse :=
  if String.eqb (data msg) "close"
  then ws_close ws
  else let body := render_gpustat_body context in ws_send_str ws body.

(** One turn of the [async for] loop, lines 175-181, for the message [msg]
    received while the store is [context]: the connection afterwards, and
    whether the loop goes on.  The iteration over a connection that has
    been closed is exhausted, so the loop ends after [ws.close()].  aiohttp
    has closed the connection when it hands over a [CLOSE] or an [ERROR]
    message: [CLOSE] breaks out (line 177); [ERROR] prints "Websocket
    connection closed with exception" (line 181), and the next turn finds
    the iteration exhausted.  The other types have no branch. *)
Definition websocket_handler_turn {conv : Ansi2HTMLConverter}
  (context : Context) (ws : WebSocketResponse) (msg : WSMessage) : WebSocketResponse * bool :=
  match type msg with
  | CLOSE => (ws_close ws, false)
  | TEXT => let ws' := _handle_websocketmessage context ws msg in (ws', negb (closed ws'))
  | ERROR => (ws_close ws, false)
  | _ => (ws, true)
  end.

(** [websocket_handler]: the messages of one viewer, each with the store
    as it is when the message is handled. *)
Fixpoint websocket_handler {conv : Ansi2HTMLConverter}
  (inbox : list (Context * WSMessage)) (ws : WebSocketResponse) : WebSocketResponse :=
  match inbox with
  | [] => ws
  | (context, msg) :: inbox' =>
      let '(ws', go_on) := websocket_handler_turn context ws msg in
      if go_on then websocket_handler inbox' ws' else ws'
  end.

(** ** Vocabulary of the statements *)

(** The hosts of a list in the order of their first occurrence. *)
Fixpoint first_occurrences (hosts : list string) : list string :=
  match hosts with
  | [] => []
  | host :: hosts' =>
      host :: filter (fun h => negb (String.eqb host h)) (first_occurrences hosts')
  end.

(** The record of [host], the empty text when there is none. *)
Definition record_of (context : Context) (host : string) : string :=
  match OrderedDict.get host (host_status context) with
  | Some status => status
  | None => ""
  end.

(** What [spawn_clients] stores for [host]. *)
Definition placeholder {tc : Termcolor} (host : string) : string :=
  host_tag host ++ "Loading ..." ++ LF.

(** What the [except] clause stores for [host] when [ex] was raised. *)
Definition error_line {tc : Termcolor} (host : string) (ex : exn) : string :=
  host_tag host ++ colored (str ex) red ++ LF.

(** The texts of a list one after the other. *)
Definition join (texts : list string) : string := fold_right String.append "" texts.

(** [x] is none of [seen]. *)
Definition unseen (seen : list string) (x : string) : bool :=
  negb (existsb (String.eqb x) seen).

(** The store without the record of [host]. *)
Definition forget (host : string) (context : Context) : Context :=
  {| host_status := OrderedDict.without host (host_status context) |}.

(** The store of two hosts right after [spawn_clients], with termcolor's
    [colored], for concrete runs. *)
Definition two_hosts : Context :=
  initial_response (tc := sgr_termcolor) ["a"; "b"] Context_init.

(** The gathered tasks of these two hosts, none resumed yet. *)
Definition two_hosts_fleet : fleet :=
  {| context := two_hosts;
     tasks := map (fun host => {| task_host := host; task_name_length := 1;
                                  task_verbose := false; task_pc := at_connect |})
                  ["a"; "b"];
     console := [] |}.

(** The coroutine has ended, by returning or with an exception. *)
Definition ended (pc : run_client_pc) : Prop :=
  pc = returned \/ exists ex, pc = propagated ex.

(** The [i]-th task, and no other, polls [host]. *)
Definition only_task_of (i : nat) (host : string) (f : fleet) : Prop :=
  forall j, nth_error (map task_host (tasks f)) j = Some host <-> j = i.

(** Every gathered task polls a host that has a record. *)
Definition registered (f : fleet) : Prop :=
  Forall (fun t => In (task_host t) (OrderedDict.keys (host_status (context f)))) (tasks f).

(** [needle] occurs in [text]. *)
Definition occurs_in (needle text : string) : Prop :=
  exists before after, text = before ++ needle ++ after.

(** The parts of what one resumption of [run_client] gives. *)
Definition pc_after (result : run_client_pc * Context * list printed) : run_client_pc :=
  fst (fst result).

Definition context_after (result : run_client_pc * Context * list printed) : Context :=
  snd (fst result).

Definition printed_by (result : run_client_pc * Context * list printed) : list printed :=
  snd result.

(** The coroutine is in its polling loop. *)
Definition polling (pc : run_client_pc) : Prop := pc = at_run \/ pc = at_sleep.

(** "If opening the session fails, the monitor ends in its terminal state
    and the record of the host is an error line": the statement for one
    failure [ex] of [asyncssh.connect]. *)
Definition open_failure_gives_error_line (tc : Termcolor)
  (host : string) (verbose : bool) (context : Context) (ex : exn) : Prop :=
  let result := run_client host verbose at_connect (throw ex) context in
  pc_after result = returned /\
  OrderedDict.get host (host_status (context_after result)) = Some (error_line host ex).

(** "Every non-empty record carries the prefix of its host": the statement
    for the store reached from [startup hosts verbose] by [schedule]. *)
Definition every_record_is_prefixed (tc : Termcolor)
  (hosts : list string) (verbose : bool) (schedule : list (nat * resumption)) : Prop :=
  forall f0, startup hosts verbose = Some f0 ->
  forall host status body,
    In (host, status) (OrderedDict.items (host_status (context (event_loop schedule f0)))) ->
    status <> "" ->
    render_item body (host, status) = body ++ status /\
    String.prefix (host_tag host) status = true.

(** ** The lines [run_client] prints *)

(** [L = name_length or 0], line 39. *)
Definition name_length_or_0 (name_length : option nat) : nat :=
  match name_length with
  | Some n => n
  | None => 0
  end.

Fixpoint spaces (n : nat) : string :=
  match n with
  | O => ""
  | S n' => String " "%char (spaces n')
  end.

(** The format [{host:<{L}}]: [host] on the left, filled with spaces up to
    the width [L]; a longer [host] is not cut. *)
Definition ljust (s : string) (width : nat) : string :=
  s ++ spaces (width - String.length s).

(** [f"[{host:<{L}}]"], the part of lines 44, 54, 57 and 70 that names the
    host. *)
Definition line_head (host : string) (name_length : option nat) : string :=
  "[" ++ ljust host (name_length_or_0 name_length) ++ "]".

(** The line head of a gathered task: [spawn_clients] passes
    [name_length=name_length]. *)
Definition task_line_head (t : task) : string :=
  line_head (task_host t) (Some (task_name_length t)).

Definition is_bye (p : printed) : bool :=
  match p with bye => true | _ => false end.

Definition is_ended (pc : run_client_pc) : bool :=
  match pc with returned | propagated _ => true | _ => false end.

(** The line of line 57, printed under [verbose] only. *)
Definition is_ok_from_gpustat (p : printed) : bool :=
  match p with ok_from_gpustat _ => true | _ => false end.

(** ** A session of polls *)

(** The resumptions of a coroutine whose polls complete with [results],
    each followed by the end of its sleep. *)
Definition polls (results : list (Z * string)) : list resumption :=
  flat_map (fun result => [completed (fst result) (snd result); woke_up]) results.

(** The output of the last poll that completed with exit status 0. *)
Fixpoint last_good (results : list (Z * string)) : option string :=
  match results with
  | [] => None
  | (exit_status, stdout) :: results' =>
      match last_good results' with
      | Some later => Some later
      | None => if Z.eqb exit_status 0 then Some stdout else None
      end
  end.

(** ** [main] *)

(** [hosts = args.hosts or ['localhost']], line 212. *)
Definition main_hosts (args_hosts : list string) : list string :=
  match args_hosts with
  | [] => ["localhost"]
  | _ :: _ => args_hosts
  end.

(** ** The messages of a viewer *)

(** A text message that asks for a snapshot. *)
Definition is_refresh (msg : WSMessage) : bool :=
  match type msg with
  | TEXT => negb (String.eqb (data msg) "close")
  | _ => false
  end.

(** A message that ends the loop of [websocket_handler]: the text
    "close", or a message of type [CLOSE] or [ERROR]. *)
Definition is_stop (msg : WSMessage) : bool :=
  match type msg with
  | TEXT => String.eqb (data msg) "close"
  | CLOSE | ERROR => true
  | _ => false
  end.

(** The snapshots asked for by an inbox, oldest first. *)
Definition replies {conv : Ansi2HTMLConverter} (inbox : list (Context * WSMessage)) : list string :=
  map (fun cm => render_gpustat_body (fst cm)) (filter (fun cm => is_refresh (snd cm)) inbox).

(** * Facts *)

(** ** The dictionary *)

Module OrderedDictFacts.
Import OrderedDict.

Ltac eqb_cases k k' :=
  let E := fresh "E" in
  destruct (String.eqb k k') eqn:E;
  [ apply String.eqb_eq in E | apply String.eqb_neq in E ].

Lemma get_set_same (k v : string) (d : t) : get k (set k v d) = Some v.
Proof.
  induction d as [| [k' v'] d IH]; simpl.
  - now rewrite String.eqb_refl.
  - eqb_cases k k'; simpl.
    + subst. now rewrite String.eqb_refl.
    + apply String.eqb_neq in E. now rewrite E.
Qed.

Lemma get_set_other (k k0 v : string) (d : t) :
  k0 <> k -> get k0 (set k v d) = get k0 d.
Proof.
  intros Hne. induction d as [| [k' v'] d IH]; simpl.
  - apply String.eqb_neq in Hne. now rewrite Hne.
  - eqb_cases k k'; simpl.
    + subst. apply String.eqb_neq in Hne. now rewrite Hne.
    + now rewrite IH.
Qed.

Lemma keys_set_known (k v : string) (d : t) :
  In k (keys d) -> keys (set k v d) = keys d.
Proof.
  induction d as [| [k' v'] d IH]; simpl.
  - tauto.
  - intros Hin. eqb_cases k k'; simpl.
    + reflexivity.
    + f_equal. apply IH. destruct Hin; congruence.
Qed.

Lemma keys_set_new (k v : string) (d : t) :
  ~ In k (keys d) -> keys (set k v d) = (keys d ++ [k])%list.
Proof.
  induction d as [| [k' v'] d IH]; simpl.
  - reflexivity.
  - intros Hnin. eqb_cases k k'; simpl.
    + subst. tauto.
    + f_equal. apply IH. tauto.
Qed.

Lemma wf_set (k v : string) (d : t) : wf d -> wf (set k v d).
Proof.
  unfold wf. intros Hwf. destruct (in_dec string_dec k (keys d)) as [Hk | Hk].
  - now rewrite keys_set_known.
  - rewrite keys_set_new by assumption.
    apply NoDup_app; [ assumption | repeat constructor; simpl; tauto | ].
    intros x Hx [Heq | []]. subst. contradiction.
Qed.

Lemma wf_empty : wf empty.
Proof. constructor. Qed.

(** The values of a well-formed dictionary, read back key by key. *)
Lemma values_by_key (d : t) :
  wf d ->
  map (fun k => match get k d with Some v => v | None => "" end) (keys d) = map snd d.
Proof.
  unfold wf. induction d as [| [k v] d IH]; simpl; intros Hwf.
  - reflexivity.
  - inversion Hwf as [| ? ? Hnin Hwf']; subst.
    rewrite String.eqb_refl. f_equal.
    rewrite <- IH by assumption.
    apply map_ext_in. intros k0 Hin.
    eqb_cases k0 k; [ subst; contradiction | reflexivity ].
Qed.

End OrderedDictFacts.

(** ** Texts *)

Lemma append_empty_r (s : string) : s ++ "" = s.
Proof. induction s as [| c s IH]; simpl; [ reflexivity | now rewrite IH ]. Qed.

Lemma append_assoc (s1 s2 s3 : string) : (s1 ++ s2) ++ s3 = s1 ++ (s2 ++ s3).
Proof. induction s1 as [| c s1 IH]; simpl; [ reflexivity | now rewrite IH ]. Qed.

Lemma prefix_append (s1 s2 : string) : String.prefix s1 (s1 ++ s2) = true.
Proof.
  induction s1 as [| c s1 IH]; simpl.
  - now destruct s2.
  - destruct (ascii_dec c c) as [_ | Hne]; [ exact IH | now elim Hne ].
Qed.

(** What [host_set_message] stores ends with a newline. *)
Lemma message_record_not_empty (tag msg : string) : tag ++ msg ++ LF <> "".
Proof. destruct tag; [ destruct msg | ]; discriminate. Qed.

(** ** Rendering *)

Lemma render_item_appends (body : string) (item : string * string) :
  render_item body item = body ++ snd item.
Proof.
  destruct item as [host status]. simpl.
  destruct (String.eqb_spec status "") as [-> | _];
    [ now rewrite append_empty_r | reflexivity ].
Qed.

Lemma fold_render_item (items : list (string * string)) (body : string) :
  fold_left render_item items body = body ++ join (map snd items).
Proof.
  revert body. induction items as [| item items IH]; intros body; simpl.
  - now rewrite append_empty_r.
  - rewrite IH, render_item_appends. unfold join. simpl. apply append_assoc.
Qed.

Lemma gpustat_body_join (context : Context) :
  gpustat_body context = join (map snd (OrderedDict.items (host_status context))).
Proof. unfold gpustat_body. now rewrite fold_render_item. Qed.

Lemma filter_keeps_all {A : Type} (f : A -> bool) (l : list A) :
  (forall x, In x l -> f x = true) -> filter f l = l.
Proof.
  induction l as [| x l IH]; simpl; intros Hall.
  - reflexivity.
  - rewrite (Hall x) by now left. f_equal. apply IH. intros y Hy. apply Hall. now right.
Qed.

(** A record that is empty adds nothing to the body. *)
Lemma join_without_empty (k : string) (d : OrderedDict.t) :
  OrderedDict.wf d -> OrderedDict.get k d = Some "" ->
  join (map snd d) = join (map snd (OrderedDict.without k d)).
Proof.
  unfold OrderedDict.wf, OrderedDict.without.
  induction d as [| [k' v'] d IH]; simpl; intros Hwf Hget.
  - reflexivity.
  - inversion Hwf as [| ? ? Hnin Hwf']; subst.
    destruct (String.eqb_spec k k') as [-> | Hne]; simpl.
    + injection Hget as ->. unfold join at 1. simpl. fold (join (map snd d)).
      rewrite filter_keeps_all; [ reflexivity | ].
      intros [k0 v0] Hin. simpl. apply negb_true_iff, String.eqb_neq.
      intros <-. apply Hnin. now apply (in_map fst) in Hin.
    + unfold join. simpl. f_equal. now apply IH.
Qed.

(** ** One monitor *)

Section Monitor.

Context {tc : Termcolor}.
Variables (host : string) (verbose : bool).

Lemma host_set_message_get (context : Context) (msg : string) :
  OrderedDict.get host (host_status (host_set_message context host msg))
  = Some (host_tag host ++ msg ++ LF).
Proof. apply OrderedDictFacts.get_set_same. Qed.

(** A coroutine that has returned stays so, and the store with it. *)
Lemma returned_is_terminal (rs : list resumption) (context : Context) :
  run_client_many host verbose rs returned context = (returned, context).
Proof. induction rs as [| r rs IH]; simpl; [ reflexivity | now destruct r ]. Qed.

(** So does one that an exception has left. *)
Lemma propagated_is_terminal (ex : exn) (rs : list resumption) (context : Context) :
  run_client_many host verbose rs (propagated ex) context = (propagated ex, context).
Proof. induction rs as [| r rs IH]; simpl; [ reflexivity | now destruct r ]. Qed.

(** The [except] clause is the same at the three [await]s. *)
Lemma throw_runs_except (pc : run_client_pc) (ex : exn) (context : Context) :
  pc = at_connect \/ polling pc ->
  run_client host verbose pc (throw ex) context = run_client_except host ex context.
Proof. unfold polling. intros [-> | [-> | ->]]; reflexivity. Qed.

(** C1.  A poll that completes with exit status 0 and output [X] makes
    the record of the host equal to [X], whatever it was, and leaves the
    record of every other host as it was; the coroutine goes on to its
    sleep. *)
Theorem successful_poll_overwrites_record (X : string) (context : Context) :
  let result := run_client host verbose at_run (completed 0 X) context in
  OrderedDict.get host (host_status (context_after result)) = Some X /\
  (forall other, other <> host ->
     OrderedDict.get other (host_status (context_after result))
     = OrderedDict.get other (host_status context)) /\
  pc_after result = at_sleep.
Proof.
  cbn. split; [ | split; [ | reflexivity ] ].
  - apply OrderedDictFacts.get_set_same.
  - intros other Hne. now apply OrderedDictFacts.get_set_other.
Qed.

(** C2.  A poll that completes with a nonzero exit status leaves the
    store as it was: the record of the host keeps the value it had
    before the poll, whatever that is, the placeholder included.  The
    failure is printed, and the coroutine goes on to its sleep. *)
Theorem failed_poll_keeps_record
  (exit_status : Z) (stdout : string) (context : Context) :
  exit_status <> 0%Z ->
  let result := run_client host verbose at_run (completed exit_status stdout) context in
  context_after result = context /\
  OrderedDict.get host (host_status (context_after result))
  = OrderedDict.get host (host_status context) /\
  printed_by result = [error_exitcode exit_status] /\
  pc_after result = at_sleep.
Proof.
  intros Hne. cbn.
  apply Z.eqb_neq in Hne. rewrite Hne. cbn. auto.
Qed.

(** C3.  A disconnection raised while the coroutine polls (at the
    command or at the sleep) makes one write, the error line of the
    host, and ends the coroutine: whatever it is resumed with
    afterwards, it stays ended, writes nothing and prints nothing. *)
Theorem disconnection_is_final
  (pc : run_client_pc) (reason : string) (context : Context) :
  polling pc ->
  let result := run_client host verbose pc (throw (DisconnectError reason)) context in
  pc_after result = returned /\
  context_after result = host_set_message context host (colored reason red) /\
  OrderedDict.get host (host_status (context_after result))
  = Some (error_line host (DisconnectError reason)) /\
  (forall rs, run_client_many host verbose rs (pc_after result) (context_after result)
              = (returned, context_after result)) /\
  (forall r, run_client host verbose (pc_after result) r (context_after result)
             = (returned, context_after result, [])).
Proof.
  intros Hpc result. subst result.
  rewrite throw_runs_except by now right.
  cbn. split; [ reflexivity | split; [ reflexivity | split; [ | split ] ] ].
  - apply host_set_message_get.
  - intros rs. apply returned_is_terminal.
  - intros r. now destruct r.
Qed.

End Monitor.

(** ** Order of first occurrence *)

Lemma unseen_snoc (seen : list string) (h x : string) :
  unseen (seen ++ [h]) x = unseen seen x && negb (String.eqb h x).
Proof.
  unfold unseen. rewrite existsb_app. simpl.
  rewrite orb_false_r, negb_orb, (String.eqb_sym x h). reflexivity.
Qed.

Lemma unseen_known (seen : list string) (h x : string) :
  In h seen -> unseen seen x && negb (String.eqb h x) = unseen seen x.
Proof.
  intros Hin. destruct (String.eqb_spec h x) as [<- | _]; simpl.
  - rewrite andb_false_r. symmetry. unfold unseen.
    apply negb_false_iff, existsb_exists. exists h. split; [ assumption | apply String.eqb_refl ].
  - apply andb_true_r.
Qed.

Lemma unseen_nil (l : list string) : filter (unseen []) l = l.
Proof. now apply filter_keeps_all. Qed.

Lemma filter_twice {A : Type} (f g : A -> bool) (l : list A) :
  filter f (filter g l) = filter (fun x => f x && g x) l.
Proof.
  induction l as [| x l IH]; simpl; [ reflexivity | ].
  destruct (g x); simpl; rewrite ?andb_true_r, ?andb_false_r;
    [ destruct (f x); now rewrite IH | exact IH ].
Qed.

Lemma first_occurrences_in (hosts : list string) (h : string) :
  In h (first_occurrences hosts) <-> In h hosts.
Proof.
  induction hosts as [| a hosts IH]; simpl; [ tauto | ].
  rewrite filter_In, IH, negb_true_iff, String.eqb_neq.
  destruct (string_dec a h); tauto.
Qed.

Lemma first_occurrences_NoDup (hosts : list string) : NoDup (first_occurrences hosts).
Proof.
  induction hosts as [| a hosts IH]; simpl; constructor.
  - rewrite filter_In, negb_true_iff, String.eqb_neq. tauto.
  - now apply NoDup_filter.
Qed.

Lemma first_occurrences_id (hosts : list string) :
  NoDup hosts -> first_occurrences hosts = hosts.
Proof.
  induction 1 as [| a hosts Hnin Hnd IH]; simpl; [ reflexivity | ].
  rewrite IH. f_equal. apply filter_keeps_all.
  intros x Hx. apply negb_true_iff, String.eqb_neq. congruence.
Qed.

(** ** The placeholder loop *)

Section InitialResponse.

Context {tc : Termcolor}.

Lemma initial_response_keys (hosts : list string) (context : Context) :
  OrderedDict.keys (host_status (initial_response hosts context))
  = (OrderedDict.keys (host_status context)
     ++ filter (unseen (OrderedDict.keys (host_status context))) (first_occurrences hosts))%list.
Proof.
  revert context. induction hosts as [| h hosts IH]; intros context; simpl.
  - now rewrite app_nil_r.
  - unfold initial_response in *. rewrite IH. cbn [host_set_message host_status].
    set (seen := OrderedDict.keys (host_status context)).
    destruct (in_dec string_dec h seen) as [Hin | Hnin].
    + rewrite OrderedDictFacts.keys_set_known by assumption. fold seen.
      f_equal.
      assert (Hh : unseen seen h = false).
      { apply negb_false_iff, existsb_exists. exists h. now rewrite String.eqb_refl. }
      rewrite Hh, filter_twice. apply filter_ext. intros x. symmetry. now apply unseen_known.
    + rewrite OrderedDictFacts.keys_set_new by assumption. fold seen.
      rewrite <- app_assoc. f_equal. simpl.
      assert (Hh : unseen seen h = true).
      { apply negb_true_iff. destruct (existsb (String.eqb h) seen) eqn:E; [ | reflexivity ].
        apply existsb_exists in E as (x & Hx & Heq). apply String.eqb_eq in Heq. now subst. }
      rewrite Hh. f_equal. rewrite filter_twice. apply filter_ext. intros x. apply unseen_snoc.
Qed.

Lemma initial_response_other (hosts : list string) (context : Context) (h : string) :
  ~ In h hosts ->
  OrderedDict.get h (host_status (initial_response hosts context))
  = OrderedDict.get h (host_status context).
Proof.
  revert context. induction hosts as [| a hosts IH]; intros context Hnin; simpl.
  - reflexivity.
  - unfold initial_response in *. rewrite IH by (simpl in Hnin; tauto).
    apply OrderedDictFacts.get_set_other. simpl in Hnin. intros ->. tauto.
Qed.

Lemma initial_response_get (hosts : list string) (context : Context) (h : string) :
  In h hosts ->
  OrderedDict.get h (host_status (initial_response hosts context)) = Some (placeholder h).
Proof.
  revert context. induction hosts as [| a hosts IH]; intros context Hin; simpl.
  - destruct Hin.
  - destruct (in_dec string_dec h hosts) as [Hlater | Hlast].
    + now apply IH.
    + destruct Hin as [-> | Hin]; [ | contradiction ].
      fold (initial_response hosts (host_set_message context h "Loading ...")).
      rewrite initial_response_other by assumption.
      apply OrderedDictFacts.get_set_same.
Qed.

Lemma initial_response_wf (hosts : list string) (context : Context) :
  OrderedDict.wf (host_status context) ->
  OrderedDict.wf (host_status (initial_response hosts context)).
Proof.
  revert context. induction hosts as [| a hosts IH]; intros context Hwf; simpl.
  - assumption.
  - apply IH. now apply OrderedDictFacts.wf_set.
Qed.

Lemma max_len_some (hosts : list string) : hosts <> [] -> exists n, max_len hosts = Some n.
Proof. destruct hosts; [ congruence | intros _; eexists; reflexivity ]. Qed.

Lemma startup_some (hosts : list string) (verbose : bool) :
  hosts <> [] -> exists f, startup hosts verbose = Some f.
Proof.
  intros Hne. destruct (max_len_some hosts Hne) as [n Hn].
  unfold startup, spawn_clients. rewrite Hn. eexists; reflexivity.
Qed.

Lemma placeholder_has_text (host : string) : occurs_in "Loading ..." (placeholder host).
Proof. exists (host_tag host), LF. reflexivity. Qed.

End InitialResponse.

(** ** The gathered tasks *)

Section Fleet.

Context {tc : Termcolor} {conv : Ansi2HTMLConverter}.

(** The cases of one resumption, the test on the exit status included. *)
Ltac run_client_cases pc r :=
  destruct pc, r as [| ? ? | | [? | ?]]; cbn;
  try match goal with
      | |- context [Z.eqb ?e 0] => destruct (Z.eqb e 0); cbn
      end.

Lemma run_client_keys (host : string) (verbose : bool)
  (pc : run_client_pc) (r : resumption) (context : Context) :
  In host (OrderedDict.keys (host_status context)) ->
  OrderedDict.keys (host_status (context_after (run_client host verbose pc r context)))
  = OrderedDict.keys (host_status context).
Proof.
  intros Hin.
  run_client_cases pc r; try reflexivity; now apply OrderedDictFacts.keys_set_known.
Qed.

Lemma run_client_wf (host : string) (verbose : bool)
  (pc : run_client_pc) (r : resumption) (context : Context) :
  OrderedDict.wf (host_status context) ->
  OrderedDict.wf (host_status (context_after (run_client host verbose pc r context))).
Proof.
  intros Hwf.
  run_client_cases pc r; try assumption; now apply OrderedDictFacts.wf_set.
Qed.

(** A resumption of [run_client host] writes no record but that of [host]. *)
Lemma run_client_frame (host other : string) (verbose : bool)
  (pc : run_client_pc) (r : resumption) (context : Context) :
  other <> host ->
  OrderedDict.get other (host_status (context_after (run_client host verbose pc r context)))
  = OrderedDict.get other (host_status context).
Proof.
  intros Hne.
  run_client_cases pc r; try reflexivity; now apply OrderedDictFacts.get_set_other.
Qed.

Lemma Forall_update_nth {A : Type} (P : A -> Prop) (i : nat) (x : A) (l : list A) :
  P x -> Forall P l -> Forall P (update_nth i x l).
Proof.
  intros Hx Hl. revert i.
  induction Hl as [| y l Hy Hl IH]; intros [| i]; simpl; constructor; auto.
Qed.

Lemma resume_task_invariant (i : nat) (r : resumption) (f : fleet) :
  registered f ->
  registered (resume_task i r f) /\
  OrderedDict.keys (host_status (context (resume_task i r f)))
  = OrderedDict.keys (host_status (context f)) /\
  (OrderedDict.wf (host_status (context f)) ->
   OrderedDict.wf (host_status (context (resume_task i r f)))).
Proof.
  intros Hreg. unfold resume_task.
  destruct (nth_error (tasks f) i) as [t |] eqn:Hnth; [ | tauto ].
  assert (Hin : In (task_host t) (OrderedDict.keys (host_status (context f)))).
  { unfold registered in Hreg. rewrite Forall_forall in Hreg.
    apply Hreg. eapply nth_error_In; eassumption. }
  pose proof (run_client_keys (task_host t) (task_verbose t) (task_pc t) r (context f) Hin) as Hkeys.
  pose proof (run_client_wf (task_host t) (task_verbose t) (task_pc t) r (context f)) as Hwf.
  destruct (run_client (task_host t) (task_verbose t) (task_pc t) r (context f))
    as [[pc' context'] out].
  unfold context_after in Hkeys, Hwf. simpl in *.
  split; [ | split; assumption ].
  unfold registered. simpl. rewrite Hkeys.
  apply Forall_update_nth; [ exact Hin | exact Hreg ].
Qed.

Lemma event_loop_invariant (schedule : list (nat * resumption)) (f : fleet) :
  registered f ->
  OrderedDict.wf (host_status (context f)) ->
  registered (event_loop schedule f) /\
  OrderedDict.keys (host_status (context (event_loop schedule f)))
  = OrderedDict.keys (host_status (context f)) /\
  OrderedDict.wf (host_status (context (event_loop schedule f))).
Proof.
  revert f. induction schedule as [| [i r] schedule IH]; intros f Hreg Hwf; simpl.
  - auto.
  - destruct (resume_task_invariant i r f Hreg) as (Hreg' & Hkeys' & Hwf').
    destruct (IH (resume_task i r f) Hreg' (Hwf' Hwf)) as (Hreg'' & Hkeys'' & Hwf'').
    unfold event_loop in *. simpl. rewrite Hkeys'' , Hkeys'. auto.
Qed.

Lemma startup_invariant (hosts : list string) (verbose : bool) (f : fleet) :
  startup hosts verbose = Some f ->
  registered f /\
  OrderedDict.wf (host_status (context f)) /\
  OrderedDict.keys (host_status (context f)) = first_occurrences hosts /\
  context f = initial_response hosts Context_init /\
  map task_host (tasks f) = hosts /\
  Forall (fun t => task_pc t = at_connect) (tasks f).
Proof.
  unfold startup, spawn_clients. destruct (max_len hosts) as [n |]; [ | discriminate ].
  intros [= <-]. simpl.
  assert (Hkeys : OrderedDict.keys (host_status (initial_response hosts Context_init))
                  = first_occurrences hosts).
  { rewrite initial_response_keys. simpl. apply unseen_nil. }
  split; [ | split; [ | split; [ | split; [ | split ] ] ] ].
  - unfold registered. simpl. rewrite Hkeys, Forall_map. simpl.
    apply Forall_forall. intros h Hh. now apply first_occurrences_in.
  - apply initial_response_wf, OrderedDictFacts.wf_empty.
  - exact Hkeys.
  - reflexivity.
  - rewrite map_map. simpl. apply map_id.
  - rewrite Forall_map. simpl. apply Forall_forall. reflexivity.
Qed.

(** Opening sessions writes nothing. *)
Lemma connected_keeps_context (schedule : list (nat * resumption)) (f : fleet) :
  Forall (fun ir => snd ir = connected) schedule ->
  context (event_loop schedule f) = context f.
Proof.
  intros Hall. revert f. induction Hall as [| [i r] schedule Hr Hall IH]; intros f.
  - reflexivity.
  - unfold event_loop in *. simpl in *. subst r. rewrite IH.
    unfold resume_task. destruct (nth_error (tasks f) i) as [t |]; [ | reflexivity ].
    now destruct (task_pc t).
Qed.

(** The body is the records, key by key in the order of the keys. *)
Lemma gpustat_body_by_key (context : Context) :
  OrderedDict.wf (host_status context) ->
  gpustat_body context
  = join (map (record_of context) (OrderedDict.keys (host_status context))).
Proof.
  intros Hwf. rewrite gpustat_body_join. unfold OrderedDict.items, record_of.
  now rewrite OrderedDictFacts.values_by_key.
Qed.

End Fleet.

(** ** Startup and rendering *)

Section Snapshot.

Context {tc : Termcolor} {conv : Ansi2HTMLConverter}.

(** C5.  For a non-empty list of hosts, right after [spawn_clients] has
    written its placeholders and before any task has been resumed:
    every host of the list has the placeholder record, which contains
    the text "Loading ..."; the keys of the store are the hosts in the
    order of the list (a host named twice is registered where it comes
    first); and the rendering is the conversion of the placeholder
    lines, one per host, in that order.  The store is still the same
    when sessions have been opened and no poll has completed. *)
Theorem startup_shows_placeholders (hosts : list string) (verbose : bool) :
  hosts <> [] ->
  exists f, startup hosts verbose = Some f /\
    (forall host, In host hosts ->
       OrderedDict.get host (host_status (context f)) = Some (placeholder host) /\
       occurs_in "Loading ..." (placeholder host)) /\
    OrderedDict.keys (host_status (context f)) = first_occurrences hosts /\
    (NoDup hosts -> OrderedDict.keys (host_status (context f)) = hosts) /\
    render_gpustat_body (context f)
    = convert (join (map placeholder (first_occurrences hosts))) /\
    Forall (fun t => task_pc t = at_connect) (tasks f) /\
    (forall schedule, Forall (fun ir => snd ir = connected) schedule ->
       context (event_loop schedule f) = context f).
Proof.
  intros Hne. destruct (startup_some hosts verbose Hne) as [f Hf].
  exists f. split; [ exact Hf | ].
  destruct (startup_invariant hosts verbose f Hf) as (_ & Hwf & Hkeys & Hctx & _ & Hpc).
  assert (Hget : forall host, In host hosts ->
            OrderedDict.get host (host_status (context f)) = Some (placeholder host)).
  { intros host Hin. rewrite Hctx. now apply initial_response_get. }
  split; [ | split; [ | split; [ | split; [ | split ] ] ] ].
  - intros host Hin. split; [ now apply Hget | apply placeholder_has_text ].
  - exact Hkeys.
  - intros Hnd. rewrite Hkeys. now apply first_occurrences_id.
  - unfold render_gpustat_body. f_equal.
    rewrite gpustat_body_by_key by assumption. rewrite Hkeys. f_equal.
    apply map_ext_in. intros host Hin. rewrite first_occurrences_in in Hin.
    unfold record_of. rewrite (Hget host Hin). reflexivity.
  - exact Hpc.
  - intros schedule. apply connected_keeps_context.
Qed.

(** C6.  Whatever the tasks have been resumed with since startup (any
    mix of hosts still pending, polled with success, or failed), the
    keys of the store are the hosts in the order of their registration
    at startup, and the rendering is the conversion of the hosts'
    current records put one after the other in that order. *)
Theorem render_follows_registration_order
  (hosts : list string) (verbose : bool) (schedule : list (nat * resumption)) :
  hosts <> [] ->
  exists f0, startup hosts verbose = Some f0 /\
    let now := context (event_loop schedule f0) in
    OrderedDict.keys (host_status now) = first_occurrences hosts /\
    gpustat_body now = join (map snd (OrderedDict.items (host_status now))) /\
    render_gpustat_body now
    = convert (join (map (record_of now) (first_occurrences hosts))).
Proof.
  intros Hne. destruct (startup_some hosts verbose Hne) as [f0 Hf0].
  exists f0. split; [ exact Hf0 | ].
  destruct (startup_invariant hosts verbose f0 Hf0) as (Hreg & Hwf & Hkeys & _).
  destruct (event_loop_invariant schedule f0 Hreg Hwf) as (_ & Hkeys' & Hwf').
  cbv zeta. split; [ congruence | split; [ apply gpustat_body_join | ] ].
  unfold render_gpustat_body. f_equal.
  rewrite gpustat_body_by_key by assumption. now rewrite Hkeys', Hkeys.
Qed.

(** C7, as the code has it.  The records that [host_set_message] writes,
    the placeholder and the error line of a disconnection, are not
    empty, are appended to the body as they are and begin with the
    prefix of their host.
    The record of a successful poll is the output of the command: it is
    appended as it is, nothing put before it. *)
Theorem message_records_are_prefixed
  (host : string) (verbose : bool) (context : Context) (body : string) :
  (let status := placeholder host in
   OrderedDict.get host (host_status (host_set_message context host "Loading ..."))
   = Some status /\
   status <> "" /\
   render_item body (host, status) = body ++ status /\
   String.prefix (host_tag host) status = true) /\
  (forall pc reason, pc = at_connect \/ polling pc ->
     let status := error_line host (DisconnectError reason) in
     OrderedDict.get host (host_status (context_after
       (run_client host verbose pc (throw (DisconnectError reason)) context)))
     = Some status /\
     status <> "" /\
     render_item body (host, status) = body ++ status /\
     String.prefix (host_tag host) status = true) /\
  (forall X,
     OrderedDict.get host (host_status (context_after
       (run_client host verbose at_run (completed 0 X) context)))
     = Some X /\
     render_item body (host, X) = body ++ X).
Proof.
  split; [ | split ].
  - cbv zeta. split; [ apply host_set_message_get | ].
    split; [ apply message_record_not_empty | ].
    split; [ apply render_item_appends | apply prefix_append ].
  - intros pc reason Hpc. cbv zeta. rewrite throw_runs_except by assumption.
    split; [ apply host_set_message_get | ].
    split; [ apply message_record_not_empty | ].
    split; [ apply render_item_appends | apply prefix_append ].
  - intros X. split; [ apply OrderedDictFacts.get_set_same | apply render_item_appends ].
Qed.

(** C10.  A poll that completes with exit status 0 and no output makes
    the record of the host the empty text.  As long as the record is
    the empty text, the host adds nothing to the body: the body and the
    rendering are those of the store without the host, which has no
    key for it. *)
Theorem empty_output_hides_host (host : string) (verbose : bool) (context : Context) :
  OrderedDict.get host (host_status (context_after
    (run_client host verbose at_run (completed 0 "") context))) = Some "" /\
  (forall later,
     OrderedDict.wf (host_status later) ->
     OrderedDict.get host (host_status later) = Some "" ->
     gpustat_body later = gpustat_body (forget host later) /\
     render_gpustat_body later = render_gpustat_body (forget host later) /\
     ~ In host (OrderedDict.keys (host_status (forget host later)))).
Proof.
  split; [ apply OrderedDictFacts.get_set_same | ].
  intros later Hwf Hget.
  assert (Hbody : gpustat_body later = gpustat_body (forget host later)).
  { rewrite !gpustat_body_join. unfold OrderedDict.items, forget. simpl.
    now apply join_without_empty. }
  split; [ exact Hbody | split ].
  - unfold render_gpustat_body. now rewrite Hbody.
  - unfold forget, OrderedDict.keys, OrderedDict.without. simpl.
    rewrite in_map_iff. intros ([k v] & Hk & Hin). simpl in Hk. subst k.
    apply filter_In in Hin as [_ Hneg]. simpl in Hneg.
    now rewrite String.eqb_refl in Hneg.
Qed.

End Snapshot.

(** ** One viewer *)

Section Viewer.

Context {conv : Ansi2HTMLConverter}.

Lemma handle_close (context : Context) (ws : WebSocketResponse) :
  _handle_websocketmessage context ws {| type := TEXT; data := "close" |} = ws_close ws.
Proof. reflexivity. Qed.

Lemma handle_refresh (context : Context) (ws : WebSocketResponse) (m : string) :
  m <> "close" ->
  _handle_websocketmessage context ws {| type := TEXT; data := m |}
  = ws_send_str ws (render_gpustat_body context).
Proof.
  intros Hne. unfold _handle_websocketmessage. simpl.
  apply String.eqb_neq in Hne. now rewrite Hne.
Qed.

Lemma websocket_handler_refresh (context : Context) (ws : WebSocketResponse)
  (m : string) (inbox : list (Context * WSMessage)) :
  closed ws = false ->
  m <> "close" ->
  websocket_handler ((context, {| type := TEXT; data := m |}) :: inbox) ws
  = websocket_handler inbox (ws_send_str ws (render_gpustat_body context)).
Proof.
  intros Hopen Hne. cbn [websocket_handler]. unfold websocket_handler_turn. cbn [type].
  rewrite (handle_refresh context ws m Hne). cbn [ws_send_str closed].
  rewrite Hopen. reflexivity.
Qed.

(** C8.  On an open connection, a text message "close" closes the
    connection and ends the session, whatever else is in the inbox, and
    nothing is sent.  Any other text message makes the server send one
    message, the rendering of the store as it is then, and leaves the
    connection open: the session goes on with the rest of the inbox on
    the connection that has this one message more.  Two such messages
    have the same effect, whatever their texts. *)
Theorem text_message_closes_or_refreshes
  (context : Context) (ws : WebSocketResponse) (m : string) :
  closed ws = false ->
  let msg := {| type := TEXT; data := m |} in
  (m = "close" ->
     _handle_websocketmessage context ws msg = ws_close ws /\
     sent (_handle_websocketmessage context ws msg) = sent ws /\
     closed (_handle_websocketmessage context ws msg) = true /\
     websocket_handler_turn context ws msg = (ws_close ws, false) /\
     forall inbox, websocket_handler ((context, msg) :: inbox) ws = ws_close ws) /\
  (m <> "close" ->
     _handle_websocketmessage context ws msg
     = ws_send_str ws (render_gpustat_body context) /\
     sent (_handle_websocketmessage context ws msg)
     = (sent ws ++ [render_gpustat_body context])%list /\
     closed (_handle_websocketmessage context ws msg) = false /\
     websocket_handler_turn context ws msg
     = (ws_send_str ws (render_gpustat_body context), true) /\
     (forall inbox,
        websocket_handler ((context, msg) :: inbox) ws
        = websocket_handler inbox (ws_send_str ws (render_gpustat_body context))) /\
     forall m', m' <> "close" ->
       _handle_websocketmessage context ws {| type := TEXT; data := m' |}
       = _handle_websocketmessage context ws msg).
Proof.
  intros Hopen. cbv zeta. split.
  - intros ->. unfold websocket_handler, websocket_handler_turn. simpl.
    rewrite handle_close. simpl. auto.
  - intros Hne.
    rewrite (handle_refresh context ws m Hne).
    split; [ reflexivity | split; [ reflexivity | split; [ exact Hopen | ] ] ].
    split; [ | split ].
    + unfold websocket_handler_turn. cbn [type].
      rewrite (handle_refresh context ws m Hne). cbn [ws_send_str closed].
      now rewrite Hopen.
    + intros inbox. now apply websocket_handler_refresh.
    + intros m' Hne'. now apply handle_refresh.
Qed.

End Viewer.

(** ** A task that has ended *)

Section Lifetime.

Context {tc : Termcolor}.

Lemma nth_error_update_nth_other {A : Type} (i j : nat) (x : A) (l : list A) :
  j <> i -> nth_error (update_nth j x l) i = nth_error l i.
Proof.
  revert i j. induction l as [| y l IH]; intros [| i] [| j] Hne; simpl;
    try reflexivity; try congruence.
  apply IH. congruence.
Qed.

Lemma nth_error_update_nth_same {A : Type} (i : nat) (x y : A) (l : list A) :
  nth_error l i = Some y -> nth_error (update_nth i x l) i = Some x.
Proof.
  revert i. induction l as [| z l IH]; intros [| i]; simpl; try discriminate.
  - reflexivity.
  - apply IH.
Qed.

Lemma map_update_nth {A B : Type} (g : A -> B) (i : nat) (x y : A) (l : list A) :
  nth_error l i = Some y -> g x = g y -> map g (update_nth i x l) = map g l.
Proof.
  revert i. induction l as [| z l IH]; intros [| i]; simpl; try discriminate.
  - intros [= ->] Hg. now rewrite Hg.
  - intros Hnth Hg. f_equal. now apply IH.
Qed.

Lemma ended_is_terminal (host : string) (verbose : bool)
  (pc : run_client_pc) (r : resumption) (context : Context) :
  ended pc -> run_client host verbose pc r context = (pc, context, []).
Proof. intros [-> | [ex ->]]; now destruct r. Qed.

Lemma resume_task_hosts (j : nat) (r : resumption) (f : fleet) :
  map task_host (tasks (resume_task j r f)) = map task_host (tasks f).
Proof.
  unfold resume_task. destruct (nth_error (tasks f) j) as [t |] eqn:Hnth; [ | reflexivity ].
  destruct (run_client (task_host t) (task_verbose t) (task_pc t) r (context f))
    as [[pc' context'] out].
  simpl. now apply map_update_nth with (y := t).
Qed.

(** Resuming a task leaves an ended task of another host, and the
    record of that host, as they are. *)
Lemma resume_task_keeps_ended (i j : nat) (r : resumption) (f : fleet)
  (t : task) :
  nth_error (tasks f) i = Some t ->
  ended (task_pc t) ->
  only_task_of i (task_host t) f ->
  nth_error (tasks (resume_task j r f)) i = Some t /\
  only_task_of i (task_host t) (resume_task j r f) /\
  OrderedDict.get (task_host t) (host_status (context (resume_task j r f)))
  = OrderedDict.get (task_host t) (host_status (context f)).
Proof.
  intros Hnth Hended Honly.
  split; [ | split ].
  - unfold resume_task. destruct (Nat.eq_dec j i) as [-> | Hne].
    + rewrite Hnth, ended_is_terminal by assumption. simpl.
      rewrite (nth_error_update_nth_same i _ t) by assumption.
      now destruct t.
    + destruct (nth_error (tasks f) j) as [t' |]; [ | assumption ].
      destruct (run_client (task_host t') (task_verbose t') (task_pc t') r (context f))
        as [[pc' context'] out].
      simpl. now rewrite nth_error_update_nth_other.
  - unfold only_task_of. now rewrite resume_task_hosts.
  - unfold resume_task. destruct (nth_error (tasks f) j) as [t' |] eqn:Hnth'; [ | reflexivity ].
    destruct (Nat.eq_dec j i) as [-> | Hne].
    + rewrite Hnth in Hnth'. injection Hnth' as <-.
      now rewrite ended_is_terminal.
    + pose proof (run_client_frame (task_host t') (task_host t) (task_verbose t')
                    (task_pc t') r (context f)) as Hframe.
      destruct (run_client (task_host t') (task_verbose t') (task_pc t') r (context f))
        as [[pc' context'] out].
      simpl. apply Hframe. intros Heq. apply Hne, Honly.
      rewrite nth_error_map, Hnth'. simpl. now rewrite Heq.
Qed.

Lemma event_loop_keeps_ended (schedule : list (nat * resumption)) (i : nat)
  (f : fleet) (t : task) :
  nth_error (tasks f) i = Some t ->
  ended (task_pc t) ->
  only_task_of i (task_host t) f ->
  nth_error (tasks (event_loop schedule f)) i = Some t /\
  OrderedDict.get (task_host t) (host_status (context (event_loop schedule f)))
  = OrderedDict.get (task_host t) (host_status (context f)).
Proof.
  revert f. induction schedule as [| [j r] schedule IH]; intros f Hnth Hended Honly.
  - split; [ assumption | reflexivity ].
  - destruct (resume_task_keeps_ended i j r f t Hnth Hended Honly) as (Hnth' & Honly' & Hget').
    destruct (IH (resume_task j r f) Hnth' Hended Honly') as (Hnth'' & Hget'').
    unfold event_loop in *. simpl. split; [ assumption | congruence ].
Qed.

(** C4, as the code has it.  When [asyncssh.connect] raises a
    [DisconnectError], the coroutine ends at once and the record of the
    host is the error line; nothing the coroutine is resumed with
    afterwards changes the store, and when no other task polls the same
    host, no schedule of the gathered tasks changes the record.  Any
    other exception raised by [asyncssh.connect] leaves [run_client]:
    the store is as it was. *)
Theorem open_disconnect_is_terminal
  (host : string) (verbose : bool) (reason : string) (store : Context) :
  open_failure_gives_error_line tc host verbose store (DisconnectError reason) /\
  (let result := run_client host verbose at_connect (throw (DisconnectError reason)) store in
   forall rs, run_client_many host verbose rs (pc_after result) (context_after result)
              = (returned, context_after result)) /\
  (forall f i t schedule,
     nth_error (tasks f) i = Some t ->
     task_host t = host ->
     task_pc t = at_connect ->
     only_task_of i host f ->
     let f' := event_loop schedule (resume_task i (throw (DisconnectError reason)) f) in
     OrderedDict.get host (host_status (context f'))
     = Some (error_line host (DisconnectError reason)) /\
     option_map task_pc (nth_error (tasks f') i) = Some returned) /\
  (let result := run_client host verbose at_connect (throw (OtherException reason)) store in
   pc_after result = propagated (OtherException reason) /\
   context_after result = store).
Proof.
  unfold open_failure_gives_error_line. cbn.
  split; [ split; [ reflexivity | apply host_set_message_get ] | ].
  split; [ intros rs; apply returned_is_terminal | ].
  split; [ | split; reflexivity ].
  intros f i t schedule Hnth Hhost Hpc Honly.
  set (f1 := resume_task i (throw (DisconnectError reason)) f).
  assert (Hnth1 : nth_error (tasks f1) i = Some (set_pc t returned)).
  { unfold f1, resume_task. rewrite Hnth, Hpc. cbn.
    now apply nth_error_update_nth_same with (y := t). }
  assert (Hget1 : OrderedDict.get host (host_status (context f1))
                  = Some (error_line host (DisconnectError reason))).
  { unfold f1, resume_task. rewrite Hnth, Hpc, Hhost. cbn. apply host_set_message_get. }
  assert (Honly1 : only_task_of i (task_host (set_pc t returned)) f1).
  { unfold only_task_of, f1. rewrite resume_task_hosts. simpl. now rewrite Hhost. }
  destruct (event_loop_keeps_ended schedule i f1 (set_pc t returned) Hnth1
              (or_introl eq_refl) Honly1) as (Hnth' & Hget').
  simpl in Hget'. rewrite Hhost in Hget'.
  split; [ congruence | ]. now rewrite Hnth'.
Qed.

End Lifetime.

(** * Concrete runs

    With termcolor's [colored] and a converter that changes nothing. *)

(** The scenario of two hosts: [a] is polled with success, [b] is
    disconnected when its session is opened. *)
Example two_hosts_scenario :
  option_map
    (fun f => render_gpustat_body (conv := plain_converter)
                (context (event_loop (tc := sgr_termcolor)
                            [(0, connected); (0, completed 0 "GPU0 OK");
                             (1, throw (DisconnectError "connection refused"));
                             (0, woke_up); (1, connected)] f)))
    (startup (tc := sgr_termcolor) ["a"; "b"] false)
  = Some ("GPU0 OK" ++ error_line (tc := sgr_termcolor) "b" (DisconnectError "connection refused")).
Proof. reflexivity. Qed.

(** An empty list of hosts stops [spawn_clients] at line 78. *)
Example no_hosts : startup (tc := sgr_termcolor) [] false = None.
Proof. reflexivity. Qed.

(** An exception that is not a [DisconnectError] leaves the placeholder. *)
Example refused_connection_keeps_placeholder :
  let result := run_client (tc := sgr_termcolor) "b" false at_connect
                  (throw (OtherException "connection refused")) two_hosts in
  pc_after result = propagated (OtherException "connection refused") /\
  OrderedDict.get "b" (host_status (context_after result))
  = Some (placeholder (tc := sgr_termcolor) "b").
Proof. split; reflexivity. Qed.

Lemma successful_poll_overwrites_record_witness :
  "b" <> "a" /\
  OrderedDict.get "a" (host_status (context_after
    (run_client (tc := sgr_termcolor) "a" false at_run (completed 0 "GPU0 OK") two_hosts)))
  = Some "GPU0 OK" /\
  OrderedDict.get "b" (host_status (context_after
    (run_client (tc := sgr_termcolor) "a" false at_run (completed 0 "GPU0 OK") two_hosts)))
  = OrderedDict.get "b" (host_status two_hosts).
Proof.
  assert (Hne : "b" <> "a") by discriminate.
  pose proof (successful_poll_overwrites_record (tc := sgr_termcolor)
                "a" false "GPU0 OK" two_hosts) as (Hsame & Hother & _).
  split; [ exact Hne | split; [ exact Hsame | exact (Hother "b" Hne) ] ].
Defined.

Lemma failed_poll_keeps_record_witness :
  (1 <> 0)%Z /\
  OrderedDict.get "a" (host_status (context_after
    (run_client (tc := sgr_termcolor) "a" false at_run (completed 1 "") two_hosts)))
  = Some (placeholder (tc := sgr_termcolor) "a").
Proof.
  assert (Hne : (1 <> 0)%Z) by lia.
  split; [ exact Hne | ].
  exact (proj1 (proj2 (failed_poll_keeps_record (tc := sgr_termcolor)
                         "a" false 1 "" two_hosts Hne))).
Defined.

Lemma disconnection_is_final_witness :
  polling at_run /\
  run_client_many (tc := sgr_termcolor) "a" false
    [throw (DisconnectError "connection lost"); woke_up; completed 0 "GPU0 OK"; connected]
    at_run two_hosts
  = (returned,
     host_set_message (tc := sgr_termcolor) two_hosts "a"
       (colored (Termcolor := sgr_termcolor) "connection lost" red)).
Proof.
  assert (Hpc : polling at_run) by (left; reflexivity).
  split; [ exact Hpc | ].
  pose proof (disconnection_is_final (tc := sgr_termcolor)
                "a" false at_run "connection lost" two_hosts Hpc) as (_ & _ & _ & Hlater & _).
  exact (Hlater [woke_up; completed 0 "GPU0 OK"; connected]).
Defined.

Example two_hosts_startup :
  startup (tc := sgr_termcolor) ["a"; "b"] false = Some two_hosts_fleet.
Proof. reflexivity. Qed.

Lemma only_task_of_b : only_task_of 1 "b" two_hosts_fleet.
Proof.
  intros [| [| [| j]]]; simpl; split; intros Hj; try discriminate; reflexivity.
Qed.

Lemma open_disconnect_is_terminal_witness :
  only_task_of 1 "b" two_hosts_fleet /\
  OrderedDict.get "b" (host_status (context
    (event_loop (tc := sgr_termcolor)
       [(0, connected); (0, completed 0 "GPU0 OK"); (1, connected);
        (1, completed 0 "GPU1 OK"); (0, woke_up)]
       (resume_task (tc := sgr_termcolor) 1
          (throw (DisconnectError "connection refused")) two_hosts_fleet))))
  = Some (error_line (tc := sgr_termcolor) "b" (DisconnectError "connection refused")).
Proof.
  split; [ exact only_task_of_b | ].
  pose proof (open_disconnect_is_terminal (tc := sgr_termcolor)
                "b" false "connection refused" two_hosts) as (_ & _ & Hfleet & _).
  exact (proj1 (Hfleet two_hosts_fleet 1 _
                  [(0, connected); (0, completed 0 "GPU0 OK"); (1, connected);
                   (1, completed 0 "GPU1 OK"); (0, woke_up)]
                  eq_refl eq_refl eq_refl only_task_of_b)).
Defined.

(** C4 fails for a failure that is no [DisconnectError]: a refused
    connection leaves [run_client], and the record of [b] is still the
    placeholder. *)
Lemma open_failure_other_exception :
  ~ open_failure_gives_error_line sgr_termcolor "b" false two_hosts
      (OtherException "connection refused").
Proof. intros [Hpc _]. discriminate Hpc. Qed.

Lemma startup_shows_placeholders_witness :
  ["a"; "b"] <> [] /\
  exists f, startup (tc := sgr_termcolor) ["a"; "b"] false = Some f /\
    render_gpustat_body (conv := plain_converter) (context f)
    = placeholder (tc := sgr_termcolor) "a" ++ placeholder (tc := sgr_termcolor) "b".
Proof.
  assert (Hne : ["a"; "b"] <> []) by discriminate.
  split; [ exact Hne | ].
  destruct (startup_shows_placeholders (tc := sgr_termcolor) (conv := plain_converter)
              ["a"; "b"] false Hne) as (f & Hf & _ & _ & _ & Hrender & _).
  exists f. split; [ exact Hf | exact Hrender ].
Defined.

Lemma render_follows_registration_order_witness :
  ["b"; "a"] <> [] /\
  exists f0, startup (tc := sgr_termcolor) ["b"; "a"] false = Some f0 /\
    let now := context (event_loop (tc := sgr_termcolor)
                          [(1, connected); (1, completed 0 "GPU0 OK");
                           (0, throw (DisconnectError "connection refused"))] f0) in
    OrderedDict.keys (host_status now) = ["b"; "a"] /\
    render_gpustat_body (conv := plain_converter) now
    = record_of now "b" ++ record_of now "a" ++ "".
Proof.
  assert (Hne : ["b"; "a"] <> []) by discriminate.
  split; [ exact Hne | ].
  destruct (render_follows_registration_order (tc := sgr_termcolor) (conv := plain_converter)
              ["b"; "a"] false
              [(1, connected); (1, completed 0 "GPU0 OK");
               (0, throw (DisconnectError "connection refused"))] Hne)
    as (f0 & Hf0 & Hkeys & _ & Hrender).
  exists f0. split; [ exact Hf0 | split; [ exact Hkeys | exact Hrender ] ].
Defined.

(** C7 fails for the record of a successful poll: it is the output of the
    command, and [(a) ] is not put before it. *)
Lemma successful_output_has_no_prefix :
  ~ every_record_is_prefixed sgr_termcolor ["a"] false
      [(0, connected); (0, completed 0 "GPU0 OK")].
Proof.
  intros Hall.
  destruct (Hall _ eq_refl "a" "GPU0 OK" "") as [_ Hprefix].
  - left. reflexivity.
  - discriminate.
  - discriminate Hprefix.
Qed.

Lemma message_records_are_prefixed_witness :
  (at_connect = at_connect \/ polling at_connect) /\
  String.prefix (host_tag (tc := sgr_termcolor) "b")
    (error_line (tc := sgr_termcolor) "b" (DisconnectError "connection refused")) = true /\
  OrderedDict.get "b" (host_status (context_after
    (run_client (tc := sgr_termcolor) "b" false at_connect
       (throw (DisconnectError "connection refused")) two_hosts)))
  = Some (error_line (tc := sgr_termcolor) "b" (DisconnectError "connection refused")).
Proof.
  assert (Hpc : at_connect = at_connect \/ polling at_connect) by (left; reflexivity).
  split; [ exact Hpc | ].
  pose proof (message_records_are_prefixed (tc := sgr_termcolor)
                "b" false two_hosts "") as (_ & Herror & _).
  destruct (Herror at_connect "connection refused" Hpc) as (Hget & _ & _ & Hprefix).
  split; [ exact Hprefix | exact Hget ].
Defined.

Lemma text_message_closes_or_refreshes_witness :
  closed WebSocketResponse_init = false /\
  "gpustat" <> "close" /\
  sent (websocket_handler (conv := plain_converter)
          [(two_hosts, {| type := TEXT; data := "close" |});
           (two_hosts, {| type := TEXT; data := "gpustat" |})]
          WebSocketResponse_init) = [] /\
  sent (_handle_websocketmessage (conv := plain_converter) two_hosts WebSocketResponse_init
          {| type := TEXT; data := "gpustat" |})
  = [render_gpustat_body (conv := plain_converter) two_hosts] /\
  websocket_handler (conv := plain_converter)
    [(two_hosts, {| type := TEXT; data := "gpustat" |});
     (Context_init, {| type := TEXT; data := "again" |});
     (two_hosts, {| type := TEXT; data := "close" |});
     (two_hosts, {| type := TEXT; data := "gpustat" |})]
    WebSocketResponse_init
  = {| closed := true;
       sent := [render_gpustat_body (conv := plain_converter) two_hosts;
                render_gpustat_body (conv := plain_converter) Context_init] |}.
Proof.
  assert (Hne : "gpustat" <> "close") by discriminate.
  assert (Hne' : "again" <> "close") by discriminate.
  split; [ reflexivity | split; [ exact Hne | split; [ | split ] ] ].
  - destruct (text_message_closes_or_refreshes (conv := plain_converter)
                two_hosts WebSocketResponse_init "close" eq_refl) as [Hclose _].
    destruct (Hclose eq_refl) as (_ & _ & _ & _ & Hend).
    rewrite Hend. reflexivity.
  - destruct (text_message_closes_or_refreshes (conv := plain_converter)
                two_hosts WebSocketResponse_init "gpustat" eq_refl) as [_ Hrefresh].
    destruct (Hrefresh Hne) as (_ & Hsent & _).
    exact Hsent.
  - destruct (text_message_closes_or_refreshes (conv := plain_converter)
                two_hosts WebSocketResponse_init "gpustat" eq_refl) as [_ Hfirst].
    destruct (Hfirst Hne) as (_ & _ & _ & _ & Hstep1 & _).
    rewrite Hstep1.
    destruct (text_message_closes_or_refreshes (conv := plain_converter)
                Context_init
                (ws_send_str WebSocketResponse_init
                   (render_gpustat_body (conv := plain_converter) two_hosts))
                "again" eq_refl) as [_ Hsecond].
    destruct (Hsecond Hne') as (_ & _ & _ & _ & Hstep2 & _).
    rewrite Hstep2.
    destruct (text_message_closes_or_refreshes (conv := plain_converter)
                two_hosts
                (ws_send_str
                   (ws_send_str WebSocketResponse_init
                      (render_gpustat_body (conv := plain_converter) two_hosts))
                   (render_gpustat_body (conv := plain_converter) Context_init))
                "close" eq_refl) as [Hthird _].
    destruct (Hthird eq_refl) as (_ & _ & _ & _ & Hend).
    rewrite Hend. reflexivity.
Defined.

Lemma empty_output_hides_host_witness :
  let later := context_after
    (run_client (tc := sgr_termcolor) "a" false at_run (completed 0 "") two_hosts) in
  OrderedDict.wf (host_status later) /\
  OrderedDict.get "a" (host_status later) = Some "" /\
  render_gpustat_body (conv := plain_converter) later
  = placeholder (tc := sgr_termcolor) "b".
Proof.
  cbv zeta.
  assert (Hwf : OrderedDict.wf (host_status (context_after
            (run_client (tc := sgr_termcolor) "a" false at_run (completed 0 "") two_hosts)))).
  { apply (run_client_wf (tc := sgr_termcolor)), initial_response_wf, OrderedDictFacts.wf_empty. }
  destruct (empty_output_hides_host (tc := sgr_termcolor) (conv := plain_converter)
              "a" false two_hosts) as [Hget Hlater].
  split; [ exact Hwf | split; [ exact Hget | ] ].
  destruct (Hlater _ Hwf Hget) as (_ & Hrender & _).
  rewrite Hrender. reflexivity.
Defined.

(** * More about [run_client] *)

Lemma set_set (k v1 v2 : string) (d : OrderedDict.t) :
  OrderedDict.set k v2 (OrderedDict.set k v1 d) = OrderedDict.set k v2 d.
Proof.
  induction d as [| [k' v'] d IH]; simpl.
  - now rewrite String.eqb_refl.
  - destruct (String.eqb k k') eqn:E; simpl; rewrite E; [ reflexivity | now rewrite IH ].
Qed.

Lemma assign_assign (context : Context) (host v1 v2 : string) :
  host_status_assign (host_status_assign context host v1) host v2
  = host_status_assign context host v2.
Proof. unfold host_status_assign. simpl. now rewrite set_set. Qed.

Section MonitorMore.

Context {tc : Termcolor}.
Variables (host : string).

(** X1.  Whatever [run_client host] is resumed with, wherever it is, it
    writes no record but that of [host]; when [host] has a record, the
    keys of the store and their order are as before, and a store without
    repeated keys stays so. *)
Theorem run_client_writes_own_record_only
  (verbose : bool) (pc : run_client_pc) (r : resumption) (context : Context) :
  let result := run_client host verbose pc r context in
  (forall other, other <> host ->
     OrderedDict.get other (host_status (context_after result))
     = OrderedDict.get other (host_status context)) /\
  (In host (OrderedDict.keys (host_status context)) ->
     OrderedDict.keys (host_status (context_after result))
     = OrderedDict.keys (host_status context)) /\
  (OrderedDict.wf (host_status context) ->
     OrderedDict.wf (host_status (context_after result))).
Proof.
  cbv zeta. split; [ | split ].
  - intros other Hne. now apply run_client_frame.
  - apply run_client_keys.
  - apply run_client_wf.
Qed.

(** X2.  The store changes at two places only: by the assignment of the
    output of a poll that completed with exit status 0, and by the error
    line of a [DisconnectError] raised in a coroutine that has not ended.
    Every other resumption leaves the store as it is. *)
Theorem run_client_writes_when
  (verbose : bool) (pc : run_client_pc) (r : resumption) (context : Context) :
  let result := run_client host verbose pc r context in
  (pc = at_run /\
   exists stdout, r = completed 0 stdout /\
     context_after result = host_status_assign context host stdout) \/
  (is_ended pc = false /\
   exists reason, r = throw (DisconnectError reason) /\
     context_after result = host_set_message context host (colored reason red)) \/
  context_after result = context.
Proof.
  cbv zeta.
  destruct pc, r as [| exit_status stdout | | [reason | reason]]; cbn;
    try (right; right; reflexivity);
    try (right; left; split; [ reflexivity | exists reason; split; reflexivity ]).
  destruct (Z.eqb_spec exit_status 0) as [-> | Hne]; cbn.
  - left. split; [ reflexivity | exists stdout; split; reflexivity ].
  - right; right; reflexivity.
Qed.

(** X3.  An exception that is not a [DisconnectError], raised at any of
    the three [await]s, is not caught: it leaves [run_client], only
    "Bye!" is printed, and the store keeps what it had, for good. *)
Theorem other_exception_propagates
  (verbose : bool) (pc : run_client_pc) (text : string) (context : Context) :
  is_ended pc = false ->
  let result := run_client host verbose pc (throw (OtherException text)) context in
  pc_after result = propagated (OtherException text) /\
  context_after result = context /\
  printed_by result = [bye] /\
  forall rs, run_client_many host verbose rs (pc_after result) (context_after result)
             = (propagated (OtherException text), context).
Proof.
  intros Hpc. destruct pc; try discriminate; cbn;
    (split; [ reflexivity | split; [ reflexivity | split; [ reflexivity | ] ] ]);
    intros rs; apply propagated_is_terminal.
Qed.

(** X4.  "Bye!" is printed on the resumption that ends the coroutine, and
    on no other: the [finally] clause runs once, whether the exception
    was caught or not, and then "Bye!" is the last line printed. *)
Theorem bye_when_the_coroutine_ends
  (verbose : bool) (pc : run_client_pc) (r : resumption) (context : Context) :
  let result := run_client host verbose pc r context in
  (In bye (printed_by result) <->
   is_ended pc = false /\ is_ended (pc_after result) = true) /\
  (In bye (printed_by result) ->
   exists before, printed_by result = (before ++ [bye])%list /\ ~ In bye before).
Proof.
  cbv zeta.
  destruct pc, r as [| exit_status stdout | | [reason | reason]]; cbn;
    try (destruct (Z.eqb exit_status 0); cbn; try destruct verbose; cbn);
    (split; [ split | ]);
    try (intros [H | [H | H]]; discriminate || contradiction);
    try (intros [H | H]; discriminate || contradiction);
    try (intros []; fail);
    try (intros [H1 H2]; discriminate);
    try (intros _; split; reflexivity);
    try (intros _; right; left; reflexivity);
    try (intros _; left; reflexivity);
    try (intros _; exists [traceback]; split;
         [ reflexivity | intros [H | []]; discriminate ]);
    try (intros _; exists []; split; [ reflexivity | intros [] ]).
Qed.

(** X5.  No reconnection: a coroutine that has left its [connect] never
    comes back to it, whatever it is resumed with. *)
Theorem never_reconnects
  (verbose : bool) (rs : list resumption) (pc : run_client_pc) (context : Context) :
  pc <> at_connect ->
  fst (run_client_many host verbose rs pc context) <> at_connect.
Proof.
  revert pc context. induction rs as [| r rs IH]; intros pc context Hpc; simpl.
  - exact Hpc.
  - destruct (run_client host verbose pc r context) as [[pc' context'] out] eqn:Hstep.
    apply IH.
    destruct pc, r as [| exit_status stdout | | [reason | reason]]; cbn in Hstep;
      try (destruct (Z.eqb exit_status 0); cbn in Hstep);
      injection Hstep as <- _ _; congruence.
Qed.

Lemma polls_cons (exit_status : Z) (stdout : string) (results : list (Z * string)) :
  polls ((exit_status, stdout) :: results)
  = completed exit_status stdout :: woke_up :: polls results.
Proof. reflexivity. Qed.

(** X6.  After a run of polls, each followed by its sleep, the coroutine
    is back at its command and the record of the host is the output of
    the last poll that completed with exit status 0; when none did, the
    store is as it was before the run. *)
Theorem polls_keep_last_good_output
  (verbose : bool) (results : list (Z * string)) (context : Context) :
  run_client_many host verbose (polls results) at_run context
  = (at_run,
     match last_good results with
     | Some stdout => host_status_assign context host stdout
     | None => context
     end).
Proof.
  revert context. induction results as [| [exit_status stdout] results IH]; intros context.
  - reflexivity.
  - rewrite polls_cons. cbn [run_client_many run_client last_good].
    destruct (Z.eqb exit_status 0) eqn:E; cbn [negb run_client]; rewrite IH.
    + destruct (last_good results) as [later |]; [ now rewrite assign_assign | reflexivity ].
    + now destruct (last_good results).
Qed.

(** X7.  [verbose] changes what is printed and nothing else: the state of
    the coroutine and the store are the same with and without it, and
    the lines printed without it are those printed with it, the
    "OK from gpustat" lines left out. *)
Theorem verbose_changes_console_only
  (pc : run_client_pc) (r : resumption) (context : Context) :
  pc_after (run_client host false pc r context)
  = pc_after (run_client host true pc r context) /\
  context_after (run_client host false pc r context)
  = context_after (run_client host true pc r context) /\
  printed_by (run_client host false pc r context)
  = filter (fun p => negb (is_ok_from_gpustat p)) (printed_by (run_client host true pc r context)).
Proof.
  destruct pc, r as [| exit_status stdout | | [reason | reason]]; cbn;
    try (destruct (Z.eqb exit_status 0); cbn); auto.
Qed.

End MonitorMore.

(** * More about [spawn_clients] and the gathered tasks *)

Lemma length_append (s1 s2 : string) :
  String.length (s1 ++ s2) = String.length s1 + String.length s2.
Proof. induction s1 as [| c s1 IH]; simpl; [ reflexivity | now rewrite IH ]. Qed.

Lemma length_spaces (n : nat) : String.length (spaces n) = n.
Proof. induction n as [| n IH]; simpl; [ reflexivity | now rewrite IH ]. Qed.

Lemma length_ljust (s : string) (width : nat) :
  String.length (ljust s width) = Nat.max width (String.length s).
Proof. unfold ljust. rewrite length_append, length_spaces. lia. Qed.

Lemma fold_max_bounds (l : list nat) (a : nat) :
  a <= fold_left Nat.max l a /\
  (forall x, In x l -> x <= fold_left Nat.max l a) /\
  (fold_left Nat.max l a = a \/ In (fold_left Nat.max l a) l).
Proof.
  revert a. induction l as [| y l IH]; intros a; simpl.
  - split; [ lia | split; [ intros x [] | now left ] ].
  - destruct (IH (Nat.max a y)) as (Hle & Hall & Hin).
    split; [ lia | split ].
    + intros x [<- | Hx]; [ lia | now apply Hall ].
    + destruct Hin as [Heq | Hin]; [ | right; now right ].
      rewrite Heq. destruct (Nat.max_spec a y) as [[_ ->] | [_ ->]]; [ right | ]; now left.
Qed.

Lemma max_len_bounds (hosts : list string) (n : nat) :
  max_len hosts = Some n ->
  (forall h, In h hosts -> String.length h <= n) /\
  (exists h, In h hosts /\ String.length h = n).
Proof.
  destruct hosts as [| host hosts]; [ discriminate | ].
  simpl. intros [= <-].
  destruct (fold_max_bounds (map String.length hosts) (String.length host)) as (Hle & Hall & Hin).
  split.
  - intros h [<- | Hh]; [ exact Hle | ]. apply Hall. now apply in_map.
  - destruct Hin as [Heq | Hin].
    + exists host. split; [ now left | now rewrite Heq ].
    + apply in_map_iff in Hin as (h & Hlen & Hh). exists h. split; [ now right | exact Hlen ].
Qed.

Lemma first_occurrences_length (hosts : list string) :
  List.length (first_occurrences hosts) <= List.length hosts /\
  (List.length (first_occurrences hosts) = List.length hosts -> NoDup hosts).
Proof.
  induction hosts as [| a hosts [IHle IHnd]]; simpl.
  - split; [ lia | constructor ].
  - pose proof (filter_length_le (fun h => negb (String.eqb a h)) (first_occurrences hosts)) as Hf.
    split; [ lia | ]. intros Heq.
    assert (Hlen : List.length (first_occurrences hosts) = List.length hosts) by lia.
    constructor; [ | now apply IHnd ].
    intros Hin. apply first_occurrences_in in Hin.
    assert (Hall : forallb (fun h => negb (String.eqb a h)) (first_occurrences hosts) = true).
    { apply filter_length_forallb. lia. }
    rewrite forallb_forall in Hall. specialize (Hall a Hin).
    now rewrite String.eqb_refl in Hall.
Qed.

Lemma filter_update_nth_length {A : Type} (p : A -> bool) (i : nat) (x t : A) (l : list A) :
  nth_error l i = Some t ->
  List.length (filter p (update_nth i x l)) + (if p t then 1 else 0)
  = List.length (filter p l) + (if p x then 1 else 0).
Proof.
  revert i. induction l as [| y l IH]; intros [| i]; simpl; try discriminate.
  - intros [= ->]. destruct (p x), (p t); simpl; lia.
  - intros Hnth. specialize (IH i Hnth). destruct (p y); simpl; lia.
Qed.

Section FleetMore.

Context {tc : Termcolor}.

Lemma run_client_bye_count (host : string) (verbose : bool)
  (pc : run_client_pc) (r : resumption) (context : Context) :
  List.length (filter is_bye (printed_by (run_client host verbose pc r context)))
  + (if is_ended pc then 1 else 0)
  = (if is_ended (pc_after (run_client host verbose pc r context)) then 1 else 0).
Proof.
  destruct pc, r as [| exit_status stdout | | [reason | reason]]; cbn;
    try (destruct (Z.eqb exit_status 0); cbn; try destruct verbose; cbn); reflexivity.
Qed.

Lemma resume_task_bye_count (i : nat) (r : resumption) (f : fleet) :
  List.length (filter is_bye (console f))
  = List.length (filter (fun t => is_ended (task_pc t)) (tasks f)) ->
  List.length (filter is_bye (console (resume_task i r f)))
  = List.length (filter (fun t => is_ended (task_pc t)) (tasks (resume_task i r f))).
Proof.
  intros Hinv. unfold resume_task.
  destruct (nth_error (tasks f) i) as [t |] eqn:Hnth; [ | exact Hinv ].
  pose proof (run_client_bye_count (task_host t) (task_verbose t) (task_pc t) r (context f)) as Hstep.
  destruct (run_client (task_host t) (task_verbose t) (task_pc t) r (context f))
    as [[pc' context'] out].
  unfold printed_by, pc_after in Hstep. simpl in *.
  rewrite filter_app, length_app.
  pose proof (filter_update_nth_length (fun t0 => is_ended (task_pc t0)) i (set_pc t pc') t
                (tasks f) Hnth) as Hupd.
  simpl in Hupd. lia.
Qed.

Lemma resume_task_keeps_ended_task (i j : nat) (r : resumption) (f : fleet) (t : task) :
  nth_error (tasks f) i = Some t ->
  ended (task_pc t) ->
  nth_error (tasks (resume_task j r f)) i = Some t.
Proof.
  intros Hnth Hended. unfold resume_task. destruct (Nat.eq_dec j i) as [-> | Hne].
  - rewrite Hnth, ended_is_terminal by assumption. simpl.
    rewrite (nth_error_update_nth_same i _ t) by assumption.
    now destruct t.
  - destruct (nth_error (tasks f) j) as [t' |]; [ | assumption ].
    destruct (run_client (task_host t') (task_verbose t') (task_pc t') r (context f))
      as [[pc' context'] out].
    simpl. now rewrite nth_error_update_nth_other.
Qed.

(** X8.  The [name_length] that [spawn_clients] gives to every task is
    the length of the longest host name: no host is longer, one host is
    that long, and so the part [[host   ]] at the head of the printed
    lines has the same length for all tasks. *)
Theorem name_length_aligns_lines
  (hosts : list string) (verbose : bool) (context : Context) (f : fleet) :
  spawn_clients hosts verbose context = Some f ->
  exists n, max_len hosts = Some n /\
    Forall (fun t => task_name_length t = n /\
                     String.length (task_host t) <= n /\
                     String.length (task_line_head t) = n + 2) (tasks f) /\
    Exists (fun t => String.length (task_host t) = n) (tasks f).
Proof.
  unfold spawn_clients. destruct (max_len hosts) as [n |] eqn:Hn; [ | discriminate ].
  intros [= <-]. exists n. split; [ reflexivity | ]. simpl.
  destruct (max_len_bounds hosts n Hn) as (Hall & h & Hh & Hlen).
  split.
  - rewrite Forall_map. apply Forall_forall. intros host Hhost.
    pose proof (Hall host Hhost) as Hle. simpl.
    split; [ reflexivity | split; [ exact Hle | ] ].
    unfold task_line_head, line_head. simpl.
    rewrite length_append, length_ljust. simpl. lia.
  - rewrite Exists_map. apply Exists_exists. exists h. split; assumption.
Qed.

(** X9.  [spawn_clients] makes one task for each entry of the list, in
    the order of the list, a host named twice having two tasks; every
    task waits at its [connect], with the [verbose] given, and nothing
    has been printed.  The store has at most as many records as there
    are tasks, and as many exactly when no host is named twice. *)
Theorem one_task_per_entry (hosts : list string) (verbose : bool) (f : fleet) :
  startup hosts verbose = Some f ->
  map task_host (tasks f) = hosts /\
  Forall (fun t => task_pc t = at_connect /\ task_verbose t = verbose) (tasks f) /\
  console f = [] /\
  List.length (OrderedDict.keys (host_status (context f))) <= List.length (tasks f) /\
  (List.length (OrderedDict.keys (host_status (context f))) = List.length (tasks f)
   <-> NoDup hosts).
Proof.
  intros Hf.
  destruct (startup_invariant hosts verbose f Hf) as (_ & _ & Hkeys & _ & Hhosts & _).
  assert (Hlen : List.length (tasks f) = List.length hosts).
  { rewrite <- (length_map task_host). now rewrite Hhosts. }
  unfold startup, spawn_clients in Hf.
  destruct (max_len hosts) as [n |]; [ | discriminate ].
  injection Hf as <-. simpl in *.
  split; [ exact Hhosts | split; [ | split; [ reflexivity | ] ] ].
  - rewrite Forall_map. apply Forall_forall. intros h _. split; reflexivity.
  - rewrite Hkeys, Hlen. destruct (first_occurrences_length hosts) as [Hle Hnd].
    split; [ exact Hle | split; [ exact Hnd | ] ].
    intros Hnodup. now rewrite first_occurrences_id.
Qed.

(** X10.  The placeholder loop, on any store: every host of the list gets
    the placeholder record, the records of the other hosts are as
    before, the keys that were there keep their places and the new ones
    follow in the order of their first occurrence in the list; no key is
    repeated if none was. *)
Theorem initial_response_resets_listed_hosts (hosts : list string) (context : Context) :
  (forall h, In h hosts ->
     OrderedDict.get h (host_status (initial_response hosts context)) = Some (placeholder h)) /\
  (forall h, ~ In h hosts ->
     OrderedDict.get h (host_status (initial_response hosts context))
     = OrderedDict.get h (host_status context)) /\
  OrderedDict.keys (host_status (initial_response hosts context))
  = (OrderedDict.keys (host_status context)
     ++ filter (unseen (OrderedDict.keys (host_status context))) (first_occurrences hosts))%list /\
  (OrderedDict.wf (host_status context) ->
   OrderedDict.wf (host_status (initial_response hosts context))).
Proof.
  split; [ | split; [ | split ] ].
  - intros h Hin. now apply initial_response_get.
  - intros h Hnin. now apply initial_response_other.
  - apply initial_response_keys.
  - apply initial_response_wf.
Qed.

(** X11.  [main] puts [localhost] in the place of an empty list of hosts,
    so the start of the tasks never fails: with no host given there is
    one task and one record, those of [localhost]; with hosts given, the
    tasks are theirs. *)
Theorem main_always_has_a_host (args_hosts : list string) (verbose : bool) :
  exists f, startup (main_hosts args_hosts) verbose = Some f /\
    (args_hosts = [] ->
       map task_host (tasks f) = ["localhost"] /\
       host_status (context f) = [("localhost", placeholder "localhost")]) /\
    (args_hosts <> [] -> map task_host (tasks f) = args_hosts).
Proof.
  assert (Hne : main_hosts args_hosts <> []) by (destruct args_hosts; discriminate).
  destruct (startup_some (main_hosts args_hosts) verbose Hne) as [f Hf].
  exists f. split; [ exact Hf | ].
  destruct (startup_invariant _ verbose f Hf) as (_ & _ & _ & Hctx & Hhosts & _).
  split.
  - intros ->. split; [ exact Hhosts | now rewrite Hctx ].
  - intros Hargs. destruct args_hosts; [ congruence | exact Hhosts ].
Qed.

(** X12.  Under any schedule from startup, "Bye!" has been printed once
    for each task that has ended, and for no other. *)
Theorem one_bye_per_ended_task
  (hosts : list string) (verbose : bool) (schedule : list (nat * resumption)) (f0 : fleet) :
  startup hosts verbose = Some f0 ->
  List.length (filter is_bye (console (event_loop schedule f0)))
  = List.length (filter (fun t => is_ended (task_pc t)) (tasks (event_loop schedule f0))).
Proof.
  intros Hf0.
  assert (Hinit : List.length (filter is_bye (console f0))
                  = List.length (filter (fun t => is_ended (task_pc t)) (tasks f0))).
  { unfold startup, spawn_clients in Hf0.
    destruct (max_len hosts) as [n |]; [ | discriminate ].
    injection Hf0 as <-. simpl. clear. induction hosts; simpl; auto. }
  clear Hf0. revert f0 Hinit.
  induction schedule as [| [i r] schedule IH]; intros f Hinv; [ exact Hinv | ].
  unfold event_loop in *. simpl. apply IH. now apply resume_task_bye_count.
Qed.

(** X13.  Nothing restarts a task: under any schedule, a task that has
    ended stays as it ended, and the tasks are those of the same hosts,
    in the same order. *)
Theorem ended_task_is_not_restarted
  (schedule : list (nat * resumption)) (f : fleet) (i : nat) (t : task) :
  nth_error (tasks f) i = Some t ->
  ended (task_pc t) ->
  nth_error (tasks (event_loop schedule f)) i = Some t /\
  map task_host (tasks (event_loop schedule f)) = map task_host (tasks f).
Proof.
  revert f. induction schedule as [| [j r] schedule IH]; intros f Hnth Hended.
  - split; [ assumption | reflexivity ].
  - pose proof (resume_task_keeps_ended_task i j r f t Hnth Hended) as Hnth'.
    destruct (IH (resume_task j r f) Hnth' Hended) as (Hnth'' & Hhosts).
    unfold event_loop in *. simpl. split; [ assumption | ].
    rewrite Hhosts. apply resume_task_hosts.
Qed.

End FleetMore.

(** * More about the snapshot and the viewer *)

Lemma join_app (l1 l2 : list string) : join (l1 ++ l2) = join l1 ++ join l2.
Proof.
  unfold join. induction l1 as [| s l1 IH]; simpl;
    [ reflexivity | now rewrite IH, append_assoc ].
Qed.

Lemma append_is_empty (s1 s2 : string) : s1 ++ s2 = "" <-> s1 = "" /\ s2 = "".
Proof.
  destruct s1; simpl; split.
  - auto.
  - now intros [_ ->].
  - discriminate.
  - intros [H _]. discriminate H.
Qed.

Lemma set_in_the_middle (k old v : string) (d1 d2 : OrderedDict.t) :
  ~ In k (OrderedDict.keys d1) ->
  OrderedDict.set k v (d1 ++ (k, old) :: d2)%list = (d1 ++ (k, v) :: d2)%list.
Proof.
  induction d1 as [| [k' v'] d1 IH]; simpl; intros Hnin.
  - now rewrite String.eqb_refl.
  - destruct (String.eqb_spec k k') as [-> | _]; [ tauto | ].
    f_equal. apply IH. tauto.
Qed.

Section SnapshotMore.

Context {tc : Termcolor} {conv : Ansi2HTMLConverter}.

(** X14.  A successful poll changes the body in the place of its host
    only: the texts of the hosts before it and after it, and their
    order, are as they were. *)
Theorem update_changes_own_segment
  (host : string) (verbose : bool) (before after : OrderedDict.t) (old X : string) :
  ~ In host (OrderedDict.keys before) ->
  let context := {| host_status := (before ++ (host, old) :: after)%list |} in
  let result := run_client host verbose at_run (completed 0 X) context in
  gpustat_body context = join (map snd before) ++ old ++ join (map snd after) /\
  gpustat_body (context_after result) = join (map snd before) ++ X ++ join (map snd after).
Proof.
  intros Hnin. cbv zeta. rewrite !gpustat_body_join. cbn.
  rewrite set_in_the_middle by assumption.
  unfold OrderedDict.items. rewrite !map_app, !join_app. split; reflexivity.
Qed.

(** X15.  The body is empty exactly when every record of the store is
    empty; a store without hosts is such a store. *)
Theorem body_empty_iff_all_records_empty (context : Context) :
  gpustat_body context = ""
  <-> Forall (fun item => snd item = "") (OrderedDict.items (host_status context)).
Proof.
  rewrite gpustat_body_join. unfold OrderedDict.items.
  induction (host_status context) as [| [k v] d IH]; simpl.
  - split; [ constructor | reflexivity ].
  - unfold join in *. simpl. rewrite append_is_empty, IH. split.
    + intros [-> Hall]. now constructor.
    + intros Hall. inversion Hall; subst. auto.
Qed.

Lemma replies_cons_refresh (context : Context) (msg : WSMessage)
  (inbox : list (Context * WSMessage)) :
  is_refresh msg = true ->
  replies ((context, msg) :: inbox) = render_gpustat_body context :: replies inbox.
Proof. intros Hr. unfold replies. simpl. now rewrite Hr. Qed.

Lemma replies_cons_other (context : Context) (msg : WSMessage)
  (inbox : list (Context * WSMessage)) :
  is_refresh msg = false ->
  replies ((context, msg) :: inbox) = replies inbox.
Proof. intros Hr. unfold replies. simpl. now rewrite Hr. Qed.

(** X16.  On an open connection, when no message of the inbox is the
    text "close" or of type [CLOSE] or [ERROR], the session answers
    every text message with the snapshot of the store as it is at that
    message, one answer per text message and in their order; the
    messages that are not text are not answered, and the connection is
    still open. *)
Theorem session_answers_every_request
  (inbox : list (Context * WSMessage)) (ws : WebSocketResponse) :
  closed ws = false ->
  Forall (fun cm => is_stop (snd cm) = false) inbox ->
  websocket_handler inbox ws
  = {| closed := false; sent := (sent ws ++ replies inbox)%list |}.
Proof.
  intros Hopen Hall. revert ws Hopen.
  induction Hall as [| [context msg] inbox Hmsg Hall IH]; intros ws Hopen.
  - simpl. unfold replies. simpl. rewrite app_nil_r. now destruct ws; simpl in *; subst.
  - simpl in Hmsg. unfold is_stop in Hmsg.
    cbn [websocket_handler]. unfold websocket_handler_turn, _handle_websocketmessage.
    destruct msg as [ty text]. simpl in *.
    destruct ty; try discriminate;
      try (rewrite replies_cons_other by reflexivity; now apply IH).
    rewrite Hmsg. simpl. rewrite Hopen. simpl.
    rewrite replies_cons_refresh by (unfold is_refresh; simpl; now rewrite Hmsg).
    rewrite IH by exact Hopen. simpl. now rewrite <- app_assoc.
Qed.

(** X17.  The loop ends at the text "close" and at a message of type
    [CLOSE] or [ERROR]: what comes after it in the inbox changes
    nothing. *)
Theorem nothing_after_stop
  (inbox1 inbox2 : list (Context * WSMessage)) (context : Context) (stop : WSMessage)
  (ws : WebSocketResponse) :
  is_stop stop = true ->
  websocket_handler (inbox1 ++ (context, stop) :: inbox2) ws
  = websocket_handler (inbox1 ++ [(context, stop)]) ws.
Proof.
  intros Hstop. revert ws.
  induction inbox1 as [| [context1 msg1] inbox1 IH]; intros ws; simpl.
  - unfold websocket_handler_turn, _handle_websocketmessage.
    unfold is_stop in Hstop. destruct stop as [ty text]. simpl in *.
    destruct ty; try discriminate; try reflexivity.
    rewrite Hstop. reflexivity.
  - destruct (websocket_handler_turn context1 ws msg1) as [ws' go_on].
    destruct go_on; [ apply IH | reflexivity ].
Qed.

(** X18.  The server sends nothing of its own accord: what a session has
    sent, beyond what was sent before, is the answers to the first
    requests of its inbox, in their order. *)
Theorem session_sends_answers_only
  (inbox : list (Context * WSMessage)) (ws : WebSocketResponse) :
  exists answered unanswered,
    sent (websocket_handler inbox ws) = (sent ws ++ answered)%list /\
    replies inbox = (answered ++ unanswered)%list.
Proof.
  revert ws. induction inbox as [| [context msg] inbox IH]; intros ws.
  - exists [], []. simpl. now rewrite app_nil_r.
  - cbn [websocket_handler]. unfold websocket_handler_turn, _handle_websocketmessage.
    destruct msg as [ty text]. simpl.
    destruct ty;
      try (destruct (IH ws) as (answered & unanswered & Hsent & Hreplies);
           exists answered, unanswered; split; [ exact Hsent | ];
           now rewrite replies_cons_other by reflexivity).
    + destruct (String.eqb text "close") eqn:E; simpl.
      * exists [], (replies ((context, {| type := TEXT; data := text |}) :: inbox)).
        split; [ now rewrite app_nil_r | reflexivity ].
      * assert (Hr : is_refresh {| type := TEXT; data := text |} = true)
          by (unfold is_refresh; simpl; now rewrite E).
        rewrite (replies_cons_refresh _ _ _ Hr).
        destruct (closed ws); simpl.
        -- exists [render_gpustat_body context], (replies inbox). split; reflexivity.
        -- destruct (IH (ws_send_str ws (render_gpustat_body context)))
             as (answered & unanswered & Hsent & Hreplies).
           exists (render_gpustat_body context :: answered), unanswered.
           rewrite Hsent, Hreplies. simpl. split; [ now rewrite <- app_assoc | reflexivity ].
    + exists [], (replies ((context, {| type := CLOSE; data := text |}) :: inbox)).
      split; [ now rewrite app_nil_r | reflexivity ].
    + exists [], (replies ((context, {| type := ERROR; data := text |}) :: inbox)).
      split; [ now rewrite app_nil_r | reflexivity ].
Qed.

End SnapshotMore.

(** * More concrete runs *)

Lemma run_client_writes_own_record_only_witness :
  "a" <> "b" /\
  OrderedDict.get "a" (host_status (context_after
    (run_client (tc := sgr_termcolor) "b" true at_sleep
       (throw (DisconnectError "connection lost")) two_hosts)))
  = OrderedDict.get "a" (host_status two_hosts).
Proof.
  assert (Hne : "a" <> "b") by discriminate.
  split; [ exact Hne | ].
  exact (proj1 (run_client_writes_own_record_only (tc := sgr_termcolor) "b" true at_sleep
                  (throw (DisconnectError "connection lost")) two_hosts) "a" Hne).
Defined.

Lemma other_exception_propagates_witness :
  is_ended at_run = false /\
  run_client_many (tc := sgr_termcolor) "a" false
    [throw (OtherException "channel open failed"); woke_up; completed 0 "GPU0 OK"]
    at_run two_hosts
  = (propagated (OtherException "channel open failed"), two_hosts).
Proof.
  split; [ reflexivity | ].
  exact (proj2 (proj2 (proj2 (other_exception_propagates (tc := sgr_termcolor) "a" false at_run
                                "channel open failed" two_hosts eq_refl)))
           [woke_up; completed 0 "GPU0 OK"]).
Defined.

Lemma never_reconnects_witness :
  at_sleep <> at_connect /\
  fst (run_client_many (tc := sgr_termcolor) "a" false
         [connected; woke_up; connected; completed 0 "GPU0 OK"] at_sleep two_hosts)
  <> at_connect.
Proof.
  assert (Hpc : at_sleep <> at_connect) by discriminate.
  split; [ exact Hpc | ].
  exact (never_reconnects (tc := sgr_termcolor) "a" false
           [connected; woke_up; connected; completed 0 "GPU0 OK"] at_sleep two_hosts Hpc).
Defined.

Lemma name_length_aligns_lines_witness :
  exists f, spawn_clients (tc := sgr_termcolor) ["a"; "gpu1"] false Context_init = Some f /\
    Forall (fun t => String.length (task_line_head t) = 6) (tasks f).
Proof.
  eexists. split; [ reflexivity | ].
  destruct (name_length_aligns_lines (tc := sgr_termcolor) ["a"; "gpu1"] false Context_init
              _ eq_refl) as (n & Hn & Hall & _).
  injection Hn as <-.
  eapply Forall_impl; [ | exact Hall ].
  intros t (_ & _ & Hhead). exact Hhead.
Defined.

Lemma one_task_per_entry_witness :
  exists f, startup (tc := sgr_termcolor) ["a"; "b"; "a"] false = Some f /\
    map task_host (tasks f) = ["a"; "b"; "a"] /\
    List.length (OrderedDict.keys (host_status (context f))) <= List.length (tasks f).
Proof.
  eexists. split; [ reflexivity | ].
  destruct (one_task_per_entry (tc := sgr_termcolor) ["a"; "b"; "a"] false _ eq_refl)
    as (Hhosts & _ & _ & Hle & _).
  split; [ exact Hhosts | exact Hle ].
Defined.

Lemma initial_response_resets_listed_hosts_witness :
  In "b" ["b"; "c"] /\ ~ In "a" ["b"; "c"] /\
  OrderedDict.get "b" (host_status
    (initial_response (tc := sgr_termcolor) ["b"; "c"]
       (host_status_assign (host_status_assign Context_init "a" "GPU0 OK") "b" "GPU1 OK")))
  = Some (placeholder (tc := sgr_termcolor) "b") /\
  OrderedDict.get "a" (host_status
    (initial_response (tc := sgr_termcolor) ["b"; "c"]
       (host_status_assign (host_status_assign Context_init "a" "GPU0 OK") "b" "GPU1 OK")))
  = Some "GPU0 OK".
Proof.
  assert (Hb : In "b" ["b"; "c"]) by (left; reflexivity).
  assert (Ha : ~ In "a" ["b"; "c"]) by (intros [H | [H | []]]; discriminate).
  destruct (initial_response_resets_listed_hosts (tc := sgr_termcolor) ["b"; "c"]
              (host_status_assign (host_status_assign Context_init "a" "GPU0 OK") "b" "GPU1 OK"))
    as (Hlisted & Hother & _).
  split; [ exact Hb | split; [ exact Ha | split; [ exact (Hlisted "b" Hb) | ] ] ].
  rewrite (Hother "a" Ha). reflexivity.
Defined.

Lemma main_always_has_a_host_witness :
  exists f, startup (tc := sgr_termcolor) (main_hosts []) true = Some f /\
    map task_host (tasks f) = ["localhost"].
Proof.
  destruct (main_always_has_a_host (tc := sgr_termcolor) [] true) as (f & Hf & Hnone & _).
  exists f. split; [ exact Hf | exact (proj1 (Hnone eq_refl)) ].
Defined.

Lemma one_bye_per_ended_task_witness :
  startup (tc := sgr_termcolor) ["a"; "b"] false = Some two_hosts_fleet /\
  List.length (filter is_bye (console (event_loop (tc := sgr_termcolor)
    [(0, connected); (1, throw (OtherException "connection refused"));
     (0, completed 0 "GPU0 OK"); (1, connected)] two_hosts_fleet))) = 1.
Proof.
  split; [ reflexivity | ].
  exact (one_bye_per_ended_task (tc := sgr_termcolor) ["a"; "b"] false
           [(0, connected); (1, throw (OtherException "connection refused"));
            (0, completed 0 "GPU0 OK"); (1, connected)] two_hosts_fleet eq_refl).
Defined.

Lemma ended_task_is_not_restarted_witness :
  let f := resume_task (tc := sgr_termcolor) 1
             (throw (DisconnectError "connection refused")) two_hosts_fleet in
  option_map task_pc (nth_error (tasks f) 1) = Some returned /\
  option_map task_pc
    (nth_error (tasks (event_loop (tc := sgr_termcolor)
                         [(1, connected); (0, connected); (1, completed 0 "GPU1 OK")] f)) 1)
  = Some returned.
Proof.
  cbv zeta. split; [ reflexivity | ].
  destruct (ended_task_is_not_restarted (tc := sgr_termcolor)
              [(1, connected); (0, connected); (1, completed 0 "GPU1 OK")]
              (resume_task (tc := sgr_termcolor) 1
                 (throw (DisconnectError "connection refused")) two_hosts_fleet)
              1 _ eq_refl (or_introl eq_refl)) as [Hnth _].
  rewrite Hnth. reflexivity.
Defined.

Lemma update_changes_own_segment_witness :
  ~ In "b" (OrderedDict.keys [("a", "GPU0 OK")]) /\
  gpustat_body (context_after
    (run_client (tc := sgr_termcolor) "b" false at_run (completed 0 "GPU1 OK")
       {| host_status := [("a", "GPU0 OK"); ("b", "old"); ("c", "GPU2 OK")] |}))
  = "GPU0 OK" ++ "GPU1 OK" ++ "GPU2 OK".
Proof.
  assert (Hnin : ~ In "b" (OrderedDict.keys [("a", "GPU0 OK")]))
    by (intros [H | []]; discriminate).
  split; [ exact Hnin | ].
  exact (proj2 (update_changes_own_segment (tc := sgr_termcolor) "b" false
                  [("a", "GPU0 OK")] [("c", "GPU2 OK")] "old" "GPU1 OK" Hnin)).
Defined.

Lemma session_answers_every_request_witness :
  closed WebSocketResponse_init = false /\
  websocket_handler (conv := plain_converter)
    [(two_hosts, {| type := TEXT; data := "gpustat" |});
     (two_hosts, {| type := PING; data := "" |});
     (Context_init, {| type := TEXT; data := "again" |})]
    WebSocketResponse_init
  = {| closed := false;
       sent := [render_gpustat_body (conv := plain_converter) two_hosts;
                render_gpustat_body (conv := plain_converter) Context_init] |}.
Proof.
  split; [ reflexivity | ].
  apply (session_answers_every_request (conv := plain_converter)
           [(two_hosts, {| type := TEXT; data := "gpustat" |});
            (two_hosts, {| type := PING; data := "" |});
            (Context_init, {| type := TEXT; data := "again" |})]
           WebSocketResponse_init eq_refl).
  repeat constructor.
Defined.

Lemma nothing_after_stop_witness :
  is_stop {| type := TEXT; data := "close" |} = true /\
  websocket_handler (conv := plain_converter)
    [(two_hosts, {| type := TEXT; data := "gpustat" |});
     (two_hosts, {| type := TEXT; data := "close" |});
     (two_hosts, {| type := TEXT; data := "gpustat" |})]
    WebSocketResponse_init
  = {| closed := true; sent := [render_gpustat_body (conv := plain_converter) two_hosts] |}.
Proof.
  split; [ reflexivity | ].
  exact (eq_trans
           (nothing_after_stop (conv := plain_converter)
              [(two_hosts, {| type := TEXT; data := "gpustat" |})]
              [(two_hosts, {| type := TEXT; data := "gpustat" |})]
              two_hosts {| type := TEXT; data := "close" |} WebSocketResponse_init eq_refl)
           eq_refl).
Defined.

(** * One writer for each record *)

Section SingleWriter.

Context {tc : Termcolor}.

Lemma resume_task_frame (i : nat) (r : resumption) (f : fleet) (h : string) :
  nth_error (map task_host (tasks f)) i <> Some h ->
  OrderedDict.get h (host_status (context (resume_task i r f)))
  = OrderedDict.get h (host_status (context f)).
Proof.
  intros Hother. unfold resume_task.
  destruct (nth_error (tasks f) i) as [t |] eqn:Hnth; [ | reflexivity ].
  pose proof (run_client_frame (task_host t) h (task_verbose t) (task_pc t) r (context f))
    as Hframe.
  destruct (run_client (task_host t) (task_verbose t) (task_pc t) r (context f))
    as [[pc' context'] out].
  simpl. apply Hframe. intros Heq. apply Hother.
  rewrite nth_error_map, Hnth. simpl. now rewrite Heq.
Qed.

(** X19.  The record of a host is written by the tasks of that host and
    by no other: a schedule that resumes only tasks of other hosts,
    whatever it resumes them with, leaves the record as it is. *)
Theorem record_changes_only_by_own_task
  (schedule : list (nat * resumption)) (f : fleet) (h : string) :
  Forall (fun ir => nth_error (map task_host (tasks f)) (fst ir) <> Some h) schedule ->
  OrderedDict.get h (host_status (context (event_loop schedule f)))
  = OrderedDict.get h (host_status (context f)).
Proof.
  intros Hall. revert f Hall.
  induction schedule as [| [i r] schedule IH]; intros f Hall; [ reflexivity | ].
  inversion Hall as [| ? ? Hi Hrest]; subst. simpl in Hi.
  unfold event_loop in *. simpl. rewrite IH.
  - now apply resume_task_frame.
  - rewrite resume_task_hosts. exact Hrest.
Qed.

End SingleWriter.

Lemma record_changes_only_by_own_task_witness :
  Forall (fun ir => nth_error (map task_host (tasks two_hosts_fleet)) (fst ir) <> Some "b")
    [(0, connected); (0, completed 0 "GPU0 OK"); (0, throw (OtherException "broken pipe"))] /\
  OrderedDict.get "b" (host_status (context
    (event_loop (tc := sgr_termcolor)
       [(0, connected); (0, completed 0 "GPU0 OK"); (0, throw (OtherException "broken pipe"))]
       two_hosts_fleet)))
  = Some (placeholder (tc := sgr_termcolor) "b").
Proof.
  assert (Hall : Forall (fun ir => nth_error (map task_host (tasks two_hosts_fleet)) (fst ir)
                                   <> Some "b")
                   [(0, connected); (0, completed 0 "GPU0 OK");
                    (0, throw (OtherException "broken pipe"))])
    by (repeat constructor; discriminate).
  split; [ exact Hall | ].
  exact (record_changes_only_by_own_task (tc := sgr_termcolor) _ two_hosts_fleet "b" Hall).
Defined.
